(** * object_recognition_node: the capture-to-pose pipeline of PerceptionInterface

    A shallow embedding of [perception_interface.cpp] (the current revision,
    the one with the action server and [IntegrateOrganizedClouds]) and of the
    dispatch loop of [object_recognition_node.cpp].

    Callbacks are functions from the object's state to an [outcome]; what the
    outside world answers during a callback (tf lookups, the localisation
    service, [rand]) is passed in as a [World]. *)

From Stdlib Require Import ZArith QArith Qround Lia.
From stdpp Require Import base option list sorting strings pretty gmap.

Local Open Scope Z_scope.

(** ** Points and organized clouds *)

(** A C++ [float].  A finite value is named by its rank in the ascending
    order of finite floats ([-0.0] and [+0.0] share rank 0, so the rank of a
    positive float is its bit pattern), which is all that [operator<] and
    [std::nth_element] look at. *)
Inductive float : Type :=
  | Finite (rank : Z)
  | Infinity (negative : bool)
  | NaN.

Definition isnan (f : float) : bool :=
  match f with NaN => true | _ => false end.

Definition isfinite (f : float) : bool :=
  match f with Finite _ => true | _ => false end.

(** [PointT]: the fields of the point type that the node reads or writes. *)
Record PointT : Type := mkPoint {
  p_x : float; p_y : float; p_z : float;
  p_r : Z; p_g : Z; p_b : Z
}.

(** [1.0f], of bit pattern 0x3F800000. *)
Definition float_one : float := Finite 1065353216.

(** [pcl::PCLHeader]. *)
Record PCLHeader : Type := mkHeader {
  header_seq : Z;
  header_stamp : Z;
  header_frame_id : string
}.

(** [pcl::PointCloud<PointT>].  [sensor_origin_] is an [Eigen::Vector4f];
    [sensor_orientation_] holds the coefficients x, y, z, w of an
    [Eigen::Quaternionf]. *)
Record PointCloud : Type := mkCloud {
  header : PCLHeader;
  points : list PointT;
  width : Z;
  height : Z;
  is_dense : bool;
  sensor_origin_ : float * float * float * float;
  sensor_orientation_ : float * float * float * float
}.

(** [new PointCloud]: a default-constructed cloud, with an empty header, a
    zero origin and the identity orientation. *)
Definition new_PointCloud : PointCloud :=
  {| header := {| header_seq := 0; header_stamp := 0;
                  header_frame_id := ""%string |};
     points := []; width := 0; height := 0; is_dense := true;
     sensor_origin_ := (Finite 0, Finite 0, Finite 0, Finite 0);
     sensor_orientation_ := (Finite 0, Finite 0, Finite 0, float_one) |}.

Definition set_z (p : PointT) (v : float) : PointT :=
  {| p_x := p_x p; p_y := p_y p; p_z := v;
     p_r := p_r p; p_g := p_g p; p_b := p_b p |}.

(** The test [std::isnan(point.z) || !std::isfinite(point.z)]. *)
Definition no_return (p : PointT) : bool :=
  isnan (p_z p) || negb (isfinite (p_z p)).

(** The rank of a finite float (the value pushed into [range_vals], which
    only ever receives finite ones). *)
Definition rank_of (f : float) : Z :=
  match f with Finite v => v | _ => 0 end.

(** ** IntegrateOrganizedClouds *)

(** [static_cast<int>] of a non-wrapping double: truncation towards zero. *)
Definition static_cast_int (q : Q) : Z :=
  Z.quot (Qnum q) (Zpos (Qden q)).

(** [static_cast<int>(static_cast<double>(range_vals.size()) / 2.0 + 0.5)] *)
Definition middle_of (size : nat) : Z :=
  static_cast_int (inject_Z (Z.of_nat size) / 2 + (1 # 2))%Q.

Fixpoint insert_asc (v : Z) (l : list Z) : list Z :=
  match l with
  | [] => [v]
  | h :: t => if v <=? h then v :: l else h :: insert_asc v t
  end.

Definition sort_asc (l : list Z) : list Z := foldr insert_asc [] l.

(** [std::nth_element(first, nth, last)] leaves at [nth] the element that a
    full ascending sort would put there; a full sort is one such
    rearrangement.  With [nth = last] it does nothing. *)
Definition nth_element (range_vals : list Z) (nth : nat) : list Z :=
  if decide (nth < length range_vals)%nat then sort_asc range_vals
  else range_vals.

(** The inner loop over [jj]: the finite depths of pixel [ii], in cloud
    order.  [None] when some cloud has no point [ii] (an out-of-range
    [points[ii]]). *)
Fixpoint collect_range_vals (point_clouds : list PointCloud) (ii : nat)
  : option (list Z) :=
  match point_clouds with
  | [] => Some []
  | cloud :: rest =>
      point ← points cloud !! ii;
      range_vals ← collect_range_vals rest ii;
      Some (if no_return point then range_vals
            else rank_of (p_z point) :: range_vals)
  end.

(** The selection made on a non-empty scratch vector: the element read at
    [range_vals.begin() + middle] after [nth_element]; [None] when that
    position is not an element of the vector. *)
Definition select_median (range_vals : list Z) : option Z :=
  let middle := Z.to_nat (middle_of (length range_vals)) in
  nth_element range_vals middle !! middle.

(** The body of the loop over [ii]. *)
Definition integrate_point (point_clouds : list PointCloud) (ii : nat)
  : option PointT :=
  range_vals ← collect_range_vals point_clouds ii;
  first ← (head point_clouds ≫= fun c => points c !! ii);
  match range_vals with
  | [] => Some first
  | _ => median ← select_median range_vals;
         Some (set_z first (Finite median))
  end.

(** [None] is undefined behaviour (a read outside a vector).  The result is
    a [new PointCloud] of which the points, [width], [height] and [is_dense]
    are assigned; its header and sensor pose stay as constructed. *)
Definition IntegrateOrganizedClouds (point_clouds : list PointCloud)
  : option PointCloud :=
  match point_clouds with
  | [] => Some new_PointCloud
  | first :: _ =>
      let num_points := length (points first) in
      pts ← mapM (integrate_point point_clouds) (seq 0 num_points);
      Some {| header := header new_PointCloud;
              points := pts; width := width first;
              height := height first; is_dense := is_dense first;
              sensor_origin_ := sensor_origin_ new_PointCloud;
              sensor_orientation_ := sensor_orientation_ new_PointCloud |}
  end.


(** ** Matrices of the response *)

Definition Row4 (A : Type) : Type := (A * A * A * A)%type.
Definition Matrix4 (A : Type) : Type := Row4 (Row4 A).

(** [Eigen::Matrix4d eigen_pose(data)]: Eigen's default storage is
    column-major, so coefficient (row, col) is [data[row + 4 * col]].
    A matrix is written as its four rows.  [None] when [data] holds fewer
    than 16 values (the constructor would read past its end). *)
Definition Matrix4d_of_data {A : Type} (data : list A) : option (Matrix4 A) :=
  match data with
  | d0 :: d1 :: d2 :: d3 :: d4 :: d5 :: d6 :: d7 ::
    d8 :: d9 :: d10 :: d11 :: d12 :: d13 :: d14 :: d15 :: _ =>
      Some ((d0, d4, d8, d12),
            (d1, d5, d9, d13),
            (d2, d6, d10, d14),
            (d3, d7, d11, d15))
  | _ => None
  end.

Definition transpose {A : Type} (m : Matrix4 A) : Matrix4 A :=
  let '((a00, a01, a02, a03),
        (a10, a11, a12, a13),
        (a20, a21, a22, a23),
        (a30, a31, a32, a33)) := m in
  ((a00, a10, a20, a30),
   (a01, a11, a21, a31),
   (a02, a12, a22, a32),
   (a03, a13, a23, a33)).

(** The 16 values read as a row-major 4x4 matrix. *)
Definition row_major {A : Type} (data : list A) : option (Matrix4 A) :=
  match data with
  | d0 :: d1 :: d2 :: d3 :: d4 :: d5 :: d6 :: d7 ::
    d8 :: d9 :: d10 :: d11 :: d12 :: d13 :: d14 :: d15 :: _ =>
      Some ((d0, d1, d2, d3),
            (d4, d5, d6, d7),
            (d8, d9, d10, d11),
            (d12, d13, d14, d15))
  | _ => None
  end.

(** ** What the node calls but does not define *)

(** tf, PCL, perception_utils, Eigen and the message conversions.  Their
    results are not computed here. *)
Class Collaborators : Type := {
  double : Type;
  double_lit : Q → double;
  double_add : double → double → double;
  double_sub : double → double → double;
  StampedTransform : Type;
  (** [tf::StampedTransform transform;] before any lookup has stored a
      transform into it. *)
  unset_StampedTransform : StampedTransform;
  (** [pcl_ros::transformPointCloud] followed by the conversions
      [toPCL] and [fromPCLPointCloud2]. *)
  transformPointCloud : string → StampedTransform → PointCloud → PointCloud;
  (** [pcl::PassThrough] with [setKeepOrganized(true)] on one field. *)
  PassThrough : string → double → double → PointCloud → PointCloud;
  (** [perception_utils::OrganizedSegmentation]: the inlier indices of the
      planes found, in the order found. *)
  OrganizedSegmentation : PointCloud → list (list Z);
  (** [perception_utils::IndexFilter(cloud, indices, true)]. *)
  IndexFilter : PointCloud → list Z → PointCloud;
  (** [tf::transformTFToEigen] followed by [tf::matrixEigenToMsg]. *)
  camera_pose_msg : StampedTransform → list double;
  Pose : Type;
  (** A default-constructed [geometry_msgs::Pose]. *)
  default_Pose : Pose;
  (** [tf::poseEigenToMsg] on the affine transform with this matrix. *)
  poseEigenToMsg : Matrix4 double → Pose
}.

Definition kColorPalette : list (list Z) :=
  [ [240; 163; 255]; [0; 117; 220]; [153; 63; 0]; [76; 0; 92]; [25; 25; 25];
    [0; 92; 49]; [43; 206; 72]; [255; 204; 153]; [128; 128; 128];
    [148; 255; 181]; [143; 124; 0]; [157; 204; 0]; [194; 0; 136];
    [0; 51; 128]; [255; 164; 5]; [255; 168; 187]; [66; 102; 0]; [255; 0; 16];
    [94; 241; 242]; [0; 153; 143]; [224; 255; 102]; [116; 10; 255];
    [153; 0; 0]; [255; 255; 128]; [255; 255; 0]; [255; 80; 5] ].

(** ** The state of a PerceptionInterface *)

(** [ros::Time]: a normalised (sec, nsec) pair, compared as its total number
    of nanoseconds. *)
Definition Time : Type := Z.

(** The goal held by the action server [perch_server_]. *)
Inductive ServerGoal (P : Type) : Type :=
  | NoGoal
  | Active
  | Succeeded (object_poses : list P)
  | Aborted (object_poses : list P).
Arguments NoGoal {P}.
Arguments Active {P}.
Arguments Succeeded {P} object_poses.
Arguments Aborted {P} object_poses.

(** Lines written to the ROS log at warning level or above, and the notice
    of an empty goal. *)
Inductive LogLine : Type :=
  | WARN_cloud_too_old
  | ERROR_transform_exception
  | ERROR_localizer_service_failed
  | INFO_no_objects_goal_aborted.

Section Node.
Context {C : Collaborators}.

(** [visualization_msgs::Marker], the fields that vary.  [color] is the
    palette row whose channels, divided by 255.0, are the marker's colour. *)
Record Marker : Type := mkMarker {
  marker_frame_id : string;
  marker_id : nat;
  marker_pose : Pose;
  marker_color : list Z;
  mesh_resource : string
}.

Record LocalizeObjectsRequest : Type := mkRequest {
  x_min : double; x_max : double; y_min : double; y_max : double;
  support_surface_height : double;
  object_ids : list string;
  camera_pose : list double;
  input_organized_cloud : PointCloud
}.

Record LocalizeObjectsResponse : Type := mkResponse {
  object_transforms : list (list double);
  stats_field_names : list string;
  stats : list double
}.

(** Members set by the constructor and not written afterwards. *)
Record Params : Type := mkParams {
  pcl_visualization_ : bool;
  table_height_ : double;
  xmin_ : double; ymin_ : double; xmax_ : double; ymax_ : double;
  reference_frame_ : string;
  camera_frame_ : string;
  wait_for_recent_ : bool;
  num_observations_to_integrate_ : Z
}.

Record State : Type := mkState {
  params : Params;
  capture_kinect_ : bool;
  cmd_rec_time_ : Time;
  recent_observations_ : list PointCloud;
  recent_cloud_ : PointCloud;
  latest_requested_objects_ : list string;
  latest_object_poses_ : list Pose;
  latest_call_success_ : bool;
  perch_result_ : list Pose;
  (** [model_bank_]: model name to mesh file. *)
  model_bank_ : gmap string string;
  perch_server_ : ServerGoal Pose;
  (** What has been sent so far, oldest first. *)
  pose_pub_ : list Pose;
  mesh_marker_pub_ : list Marker;
  object_localization_client_ : list LocalizeObjectsRequest;
  rosout : list LogLine
}.

Definition set_capture_kinect_ (v : bool) (s : State) : State :=
  let 'mkState p _ t ro rc lr lp lc pr mb ps pp mp oc lg := s in
  mkState p v t ro rc lr lp lc pr mb ps pp mp oc lg.
Definition set_cmd_rec_time_ (v : Time) (s : State) : State :=
  let 'mkState p ck _ ro rc lr lp lc pr mb ps pp mp oc lg := s in
  mkState p ck v ro rc lr lp lc pr mb ps pp mp oc lg.
Definition set_recent_observations_ (v : list PointCloud) (s : State) : State :=
  let 'mkState p ck t _ rc lr lp lc pr mb ps pp mp oc lg := s in
  mkState p ck t v rc lr lp lc pr mb ps pp mp oc lg.
Definition set_recent_cloud_ (v : PointCloud) (s : State) : State :=
  let 'mkState p ck t ro _ lr lp lc pr mb ps pp mp oc lg := s in
  mkState p ck t ro v lr lp lc pr mb ps pp mp oc lg.
Definition set_latest_requested_objects_ (v : list string) (s : State) : State :=
  let 'mkState p ck t ro rc _ lp lc pr mb ps pp mp oc lg := s in
  mkState p ck t ro rc v lp lc pr mb ps pp mp oc lg.
Definition set_latest_object_poses_ (v : list Pose) (s : State) : State :=
  let 'mkState p ck t ro rc lr _ lc pr mb ps pp mp oc lg := s in
  mkState p ck t ro rc lr v lc pr mb ps pp mp oc lg.
Definition set_latest_call_success_ (v : bool) (s : State) : State :=
  let 'mkState p ck t ro rc lr lp _ pr mb ps pp mp oc lg := s in
  mkState p ck t ro rc lr lp v pr mb ps pp mp oc lg.
Definition set_perch_result_ (v : list Pose) (s : State) : State :=
  let 'mkState p ck t ro rc lr lp lc _ mb ps pp mp oc lg := s in
  mkState p ck t ro rc lr lp lc v mb ps pp mp oc lg.
Definition set_model_bank_ (v : gmap string string) (s : State) : State :=
  let 'mkState p ck t ro rc lr lp lc pr _ ps pp mp oc lg := s in
  mkState p ck t ro rc lr lp lc pr v ps pp mp oc lg.
Definition set_perch_server_ (v : ServerGoal Pose) (s : State) : State :=
  let 'mkState p ck t ro rc lr lp lc pr mb _ pp mp oc lg := s in
  mkState p ck t ro rc lr lp lc pr mb v pp mp oc lg.

(** [pose_pub_.publish], [mesh_marker_pub_.publish], the record of a
    service call and of a log line. *)
Definition publish_pose (v : Pose) (s : State) : State :=
  let 'mkState p ck t ro rc lr lp lc pr mb ps pp mp oc lg := s in
  mkState p ck t ro rc lr lp lc pr mb ps (pp ++ [v]) mp oc lg.
Definition publish_marker (v : Marker) (s : State) : State :=
  let 'mkState p ck t ro rc lr lp lc pr mb ps pp mp oc lg := s in
  mkState p ck t ro rc lr lp lc pr mb ps pp (mp ++ [v]) oc lg.
Definition sent_request (v : LocalizeObjectsRequest) (s : State) : State :=
  let 'mkState p ck t ro rc lr lp lc pr mb ps pp mp oc lg := s in
  mkState p ck t ro rc lr lp lc pr mb ps pp mp (oc ++ [v]) lg.
Definition ros_log (v : LogLine) (s : State) : State :=
  let 'mkState p ck t ro rc lr lp lc pr mb ps pp mp oc lg := s in
  mkState p ck t ro rc lr lp lc pr mb ps pp mp oc (lg ++ [v]).

(** The constructor, given the values read from the parameter server and
    the model bank built from the [model_bank] parameter.  The integration
    count is not among them: the initialiser list sets it to 1. *)
Definition PerceptionInterface (pcl_visualization : bool)
    (table_height xmin ymin xmax ymax : double)
    (reference_frame camera_frame : string) (wait_for_recent : bool)
    (bank : gmap string string) : State :=
  {| params := {| pcl_visualization_ := pcl_visualization;
                  table_height_ := table_height;
                  xmin_ := xmin; ymin_ := ymin; xmax_ := xmax; ymax_ := ymax;
                  reference_frame_ := reference_frame;
                  camera_frame_ := camera_frame;
                  wait_for_recent_ := wait_for_recent;
                  num_observations_to_integrate_ := 1 |};
     capture_kinect_ := false;
     cmd_rec_time_ := 0;
     recent_observations_ := [];
     recent_cloud_ := new_PointCloud;
     latest_requested_objects_ := [];
     latest_object_poses_ := [];
     latest_call_success_ := false;
     perch_result_ := [];
     model_bank_ := bank;
     perch_server_ := NoGoal;
     pose_pub_ := [];
     mesh_marker_pub_ := [];
     object_localization_client_ := [];
     rosout := [] |}.

(** The node constructed when no parameter is set: every parameter takes
    the default given in the constructor. *)
Definition default_PerceptionInterface (bank : gmap string string) : State :=
  PerceptionInterface false (double_lit 0)
    (double_lit 0) (double_lit 0) (double_lit 0) (double_lit 0)
    "/base_footprint" "/head_mount_kinect_rgb_link" false bank.

(** ** What the world answers during one cloud callback *)

(** A [sensor_msgs::PointCloud2]: the stamp and the frame of its header, and
    its fields and data as the cloud that the conversions read from them. *)
Record SensorCloud : Type := mkSensorCloud {
  stamp : Time;
  frame_id : string;
  cloud : PointCloud
}.

Record World : Type := mkWorld {
  (** [lookupTransform(reference_frame_, frame_id, ...)]: [None] when it
      throws a [tf::TransformException]. *)
  frame_lookup : option StampedTransform;
  (** [lookupTransform(reference_frame_, camera_frame_, ...)]. *)
  camera_lookup : option StampedTransform;
  (** [object_localization_client_.call(srv)]: [None] when it returns
      false. *)
  localizer : LocalizeObjectsRequest → option LocalizeObjectsResponse;
  (** The value of [rand()] in iteration [ii] of the result loop. *)
  rand : nat → Z
}.

(** How a callback ends.  [Threw]: a [tf::TransformException] left it, in
    the state given.  [Undefined]: it reached undefined behaviour (an access
    outside a vector, a call through [viewer_] when no viewer was made) in
    the state given. *)
Inductive outcome : Type :=
  | Returned (s : State)
  | Threw (s : State)
  | Undefined (s : State).

Definition final_state (o : outcome) : State :=
  match o with Returned s | Threw s | Undefined s => s end.

Definition isActive (s : State) : bool :=
  match perch_server_ s with Active => true | _ => false end.

(** ** CloudCBInternal *)

(** The loop that sets the colour of no-return points to black. *)
Definition blacken (p : PointT) : PointT :=
  if no_return p
  then {| p_x := p_x p; p_y := p_y p; p_z := p_z p;
          p_r := 0; p_g := 0; p_b := 0 |}
  else p.

Definition blacken_cloud (c : PointCloud) : PointCloud :=
  {| header := header c;
     points := blacken <$> points c; width := width c;
     height := height c; is_dense := is_dense c;
     sensor_origin_ := sensor_origin_ c;
     sensor_orientation_ := sensor_orientation_ c |}.

(** From [pt_filter.setInputCloud(original_cloud)] to the blackening loop,
    with [new_table_filter = true]. *)
Definition table_removed (p : Params) (original_cloud : PointCloud)
  : PointCloud :=
  let c := PassThrough "x" (xmin_ p) (xmax_ p) original_cloud in
  let c := PassThrough "y" (ymin_ p) (ymax_ p) c in
  let c := PassThrough "z"
             (double_sub (table_height_ p) (double_lit 0.1))
             (double_add (table_height_ p) (double_lit 0.55)) c in
  let model_inliers := OrganizedSegmentation c in
  let c := match model_inliers with
           | first_plane :: _ => IndexFilter c first_plane
           | [] => c
           end in
  blacken_cloud c.

(** [model_bank_[model_name].file]: [operator[]] adds a default entry for a
    name it does not hold. *)
Definition model_bank_file (model_name : string) (s : State)
  : string * State :=
  match model_bank_ s !! model_name with
  | Some file => (file, s)
  | None =>
      (""%string,
       set_model_bank_ (<[model_name := ""%string]> (model_bank_ s)) s)
  end.

(** One iteration of the loop over [req.object_ids]. *)
Definition localize_object (w : World) (resp : LocalizeObjectsResponse)
    (ii : nat) (model_name : string) (s : State) : outcome :=
  match object_transforms resp !! ii ≫= Matrix4d_of_data with
  | None => Undefined s
  | Some eigen_pose =>
      let object_transform := transpose eigen_pose in
      let '(model_file, s) := model_bank_file model_name s in
      (* viewer_->addPolygonMesh, viewer_->setPointCloudRenderingProperties *)
      if negb (pcl_visualization_ (params s)) then Undefined s else
      let rand_idx := Z.to_nat (rand w ii `mod` Z.of_nat (length kColorPalette)) in
      let color := default [] (kColorPalette !! rand_idx) in
      let pose := poseEigenToMsg object_transform in
      let s := set_latest_object_poses_ (<[ii := pose]> (latest_object_poses_ s)) s in
      let marker := {| marker_frame_id := reference_frame_ (params s);
                       marker_id := ii;
                       marker_pose := pose;
                       marker_color := color;
                       mesh_resource := "file://" +:+ model_file |} in
      let s := publish_marker marker s in
      let s := if decide (ii = 0%nat) then publish_pose pose s else s in
      Returned s
  end.

Fixpoint localize_objects (w : World) (resp : LocalizeObjectsResponse)
    (ii : nat) (ids : list string) (s : State) : outcome :=
  match ids with
  | [] => Returned s
  | model_name :: rest =>
      match localize_object w resp ii model_name s with
      | Returned s => localize_objects w resp (S ii) rest s
      | o => o
      end
  end.

(** The request filled in before the call. *)
Definition make_request (s : State) (transform : StampedTransform)
    (table_removed_cloud : PointCloud) : LocalizeObjectsRequest :=
  {| x_min := xmin_ (params s); x_max := xmax_ (params s);
     y_min := ymin_ (params s); y_max := ymax_ (params s);
     support_surface_height := table_height_ (params s);
     object_ids := latest_requested_objects_ s;
     camera_pose := camera_pose_msg transform;
     input_organized_cloud := table_removed_cloud |}.

Definition CloudCBInternal (w : World) (original_cloud : PointCloud)
    (s : State) : outcome :=
  let s := set_recent_cloud_ original_cloud s in
  let table_removed_cloud := table_removed (params s) original_cloud in
  match camera_lookup w with
  | None => Threw s
  | Some transform =>
      let req := make_request s transform table_removed_cloud in
      let s := set_latest_object_poses_ [] s in
      let s := sent_request req s in
      let service_call_success := localizer w req in
      let s := set_latest_call_success_ (bool_decide (is_Some service_call_success)) s in
      match service_call_success with
      | Some resp =>
          (* the statistics loop reads stats[ii] for every field name *)
          if decide (length (stats resp) < length (stats_field_names resp))%nat
          then Undefined s else
          let s := set_latest_object_poses_
                     (replicate (length (object_ids req)) default_Pose) s in
          match localize_objects w resp 0 (object_ids req) s with
          | Returned s =>
              Returned (if isActive s
                        then set_perch_server_ (Succeeded (latest_object_poses_ s))
                               (set_perch_result_ (latest_object_poses_ s) s)
                        else s)
          | o => o
          end
      | None =>
          let s := ros_log ERROR_localizer_service_failed s in
          Returned (if isActive s
                    then set_perch_server_ (Aborted []) (set_perch_result_ [] s)
                    else s)
      end
  end.

(** ** CloudCB *)

Definition CloudCB (w : World) (sensor_cloud : SensorCloud) (s : State)
  : outcome :=
  if negb (capture_kinect_ s) then Returned s else
  if wait_for_recent_ (params s) && bool_decide (stamp sensor_cloud < cmd_rec_time_ s)
  then Returned (ros_log WARN_cloud_too_old s) else
  (* try { lookupTransform(..., transform) } catch { ROS_ERROR } *)
  let transform := default unset_StampedTransform (frame_lookup w) in
  let s := match frame_lookup w with
           | Some _ => s
           | None => ros_log ERROR_transform_exception s
           end in
  let pcl_cloud :=
    transformPointCloud (reference_frame_ (params s)) transform
      (cloud sensor_cloud) in
  (* pcl_cloud is a fresh allocation, never nullptr *)
  let s := set_recent_observations_ (recent_observations_ s ++ [pcl_cloud]) s in
  if bool_decide (Z.of_nat (length (recent_observations_ s))
                  < num_observations_to_integrate_ (params s))
  then Returned s else
  match IntegrateOrganizedClouds (recent_observations_ s) with
  | None => Undefined s
  | Some integrated_cloud =>
      (* CloudCBInternal(integrated_cloud); is commented out in the source *)
      match CloudCBInternal w pcl_cloud s with
      | Returned s => Returned (set_capture_kinect_ false s)
      | o => o
      end
  end.

(** ** The trigger callbacks *)

(** [static_cast<char>(pressed_key.code) == 'c'] *)
Definition KeyboardCB (code : Z) (s : State) : State :=
  if decide (code `mod` 256 = 99) then set_capture_kinect_ true s else s.

(** [now] is the value of [ros::Time::now()]. *)
Definition RequestedObjectsCB (object_name : string) (now : Time) (s : State)
  : State :=
  let s := set_latest_requested_objects_ [object_name] s in
  let s := set_capture_kinect_ true s in
  let s := set_recent_observations_ [] s in
  if wait_for_recent_ (params s) then set_cmd_rec_time_ now s else s.

(** [goal_ids] is [perch_server_->acceptNewGoal()->object_ids]; accepting
    makes the new goal the active one. *)
Definition PERCHGoalCB (goal_ids : list string) (s : State) : State * bool :=
  let s := set_perch_server_ Active s in
  let s := set_latest_requested_objects_ goal_ids s in
  match latest_requested_objects_ s with
  | [] =>
      let s := set_perch_result_ [] s in
      let s := ros_log INFO_no_objects_goal_aborted s in
      (set_perch_server_ (Aborted (perch_result_ s)) s, false)
  | _ => (set_capture_kinect_ true s, true)
  end.

(** ** The dispatch loop of main *)

Inductive Event : Type :=
  | InputCloud (w : World) (sensor_cloud : SensorCloud)
  | Keypress (code : Z)
  | RequestedObject (object_name : string) (now : Time)
  | PerchGoal (goal_ids : list string).

(** [main] has no handler around [ros::spinOnce()]: an exception that
    leaves a callback leaves [main] and ends the process. *)
Inductive Process : Type :=
  | Running (s : State)
  | Terminated (s : State)
  | UndefinedBehaviour (s : State).

Definition dispatch (e : Event) (s : State) : Process :=
  match e with
  | InputCloud w sensor_cloud =>
      match CloudCB w sensor_cloud s with
      | Returned s => Running s
      | Threw s => Terminated s
      | Undefined s => UndefinedBehaviour s
      end
  | Keypress code => Running (KeyboardCB code s)
  | RequestedObject object_name now =>
      Running (RequestedObjectsCB object_name now s)
  | PerchGoal goal_ids => Running (PERCHGoalCB goal_ids s).1
  end.

Fixpoint spin (events : list Event) (s : State) : Process :=
  match events with
  | [] => Running s
  | e :: rest =>
      match dispatch e s with
      | Running s => spin rest s
      | p => p
      end
  end.

End Node.

(** ** The earlier revision of the node *)

(** The second revision kept in [perception_interface.cpp]: no buffer, no
    requests and no service; a key arms the gate, and the next cloud is
    filtered and written to three files. *)
Module Legacy.
Section Node.
Context {C : Collaborators}.

Record State : Type := mkState {
  pcl_visualization_ : bool;
  table_height_ : double;
  reference_frame_ : string;
  capture_kinect_ : bool;
  recent_cloud_ : PointCloud;
  (** [static int image_count] of [CloudCBInternal]. *)
  image_count : Z;
  (** The files written so far, oldest first, each with the cloud saved
      in it. *)
  files : list (string * PointCloud);
  rosout : list LogLine
}.

(** The constructor, given the values read from the parameter server. *)
Definition PerceptionInterface (visualize : bool) (table_height : double)
    (reference_frame : string) : State :=
  {| pcl_visualization_ := visualize;
     table_height_ := table_height;
     reference_frame_ := reference_frame;
     capture_kinect_ := false;
     recent_cloud_ := new_PointCloud;
     image_count := 0;
     files := [];
     rosout := [] |}.

Inductive outcome : Type :=
  | Returned (s : State)
  | Threw (s : State)
  | Undefined (s : State).

Definition final_state (o : outcome) : State :=
  match o with Returned s | Threw s | Undefined s => s end.

Definition output_dir : string :=
  "/usr0/home/venkatrn/hydro_workspace/src/perception/object_recognition_node".

(** [string("frame_") + std::to_string(image_count)] *)
Definition output_image_name (count : Z) : string :=
  "frame_" +:+ pretty count.

(** [path.replace_extension(ext)] on a path whose file name holds no dot:
    the extension is appended. *)
Definition replace_extension (path ext : string) : string := path +:+ ext.

Definition output_image_path (count : Z) : string :=
  replace_extension (output_dir +:+ "/" +:+ output_image_name count) ".png".
Definition output_pcd_path (count : Z) : string :=
  replace_extension (output_dir +:+ "/" +:+ output_image_name count) ".pcd".
Definition output_orig_pcd_path (count : Z) : string :=
  replace_extension (output_dir +:+ "/orig_" +:+ output_image_name count)
    ".pcd".

Definition table_removed (s : State) (original_cloud : PointCloud)
  : PointCloud :=
  let c := PassThrough "x" (double_lit 0) (double_lit 0.75) original_cloud in
  let c := PassThrough "y" (double_lit (-0.5)) (double_lit 0.5) c in
  let c := PassThrough "z" (table_height_ s)
             (double_add (table_height_ s) (double_lit 0.2)) c in
  blacken_cloud c.

Definition CloudCBInternal (w : World) (original_cloud : PointCloud)
    (s : State) : outcome :=
  let s := {| pcl_visualization_ := pcl_visualization_ s;
              table_height_ := table_height_ s;
              reference_frame_ := reference_frame_ s;
              capture_kinect_ := capture_kinect_ s;
              recent_cloud_ := original_cloud;
              image_count := image_count s;
              files := files s;
              rosout := rosout s |} in
  let table_removed_cloud := table_removed s original_cloud in
  match camera_lookup w with
  | None => Threw s
  | Some _ =>
      let written :=
        [ (output_image_path (image_count s), table_removed_cloud);
          (output_pcd_path (image_count s), table_removed_cloud);
          (output_orig_pcd_path (image_count s), original_cloud) ] in
      let s := {| pcl_visualization_ := pcl_visualization_ s;
                  table_height_ := table_height_ s;
                  reference_frame_ := reference_frame_ s;
                  capture_kinect_ := capture_kinect_ s;
                  recent_cloud_ := recent_cloud_ s;
                  image_count := image_count s;
                  files := files s ++ written;
                  rosout := rosout s |} in
      (* image_count++ on an int *)
      if decide (image_count s = 2147483647) then Undefined s else
      Returned {| pcl_visualization_ := pcl_visualization_ s;
                  table_height_ := table_height_ s;
                  reference_frame_ := reference_frame_ s;
                  capture_kinect_ := capture_kinect_ s;
                  recent_cloud_ := recent_cloud_ s;
                  image_count := image_count s + 1;
                  files := files s;
                  rosout := rosout s |}
  end.

Definition set_capture_kinect_ (v : bool) (s : State) : State :=
  {| pcl_visualization_ := pcl_visualization_ s;
     table_height_ := table_height_ s;
     reference_frame_ := reference_frame_ s;
     capture_kinect_ := v;
     recent_cloud_ := recent_cloud_ s;
     image_count := image_count s;
     files := files s;
     rosout := rosout s |}.

Definition ros_log (v : LogLine) (s : State) : State :=
  {| pcl_visualization_ := pcl_visualization_ s;
     table_height_ := table_height_ s;
     reference_frame_ := reference_frame_ s;
     capture_kinect_ := capture_kinect_ s;
     recent_cloud_ := recent_cloud_ s;
     image_count := image_count s;
     files := files s;
     rosout := rosout s ++ [v] |}.

Definition CloudCB (w : World) (sensor_cloud : SensorCloud) (s : State)
  : outcome :=
  if negb (capture_kinect_ s) then Returned s else
  (* try { lookupTransform(..., transform) } catch { ROS_ERROR } *)
  let transform := default unset_StampedTransform (frame_lookup w) in
  let s := match frame_lookup w with
           | Some _ => s
           | None => ros_log ERROR_transform_exception s
           end in
  let pcl_cloud :=
    transformPointCloud (reference_frame_ s) transform (cloud sensor_cloud) in
  match CloudCBInternal w pcl_cloud s with
  | Returned s => Returned (set_capture_kinect_ false s)
  | o => o
  end.

(** [static_cast<char>(pressed_key.code) == 'c'] *)
Definition KeyboardCB (code : Z) (s : State) : State :=
  if decide (code `mod` 256 = 99) then set_capture_kinect_ true s else s.

Definition IsPointInWorkspace (p : PointT) : bool := true.

Inductive Event : Type :=
  | InputCloud (w : World) (sensor_cloud : SensorCloud)
  | Keypress (code : Z).

(** The callbacks run one after the other until one ends the process. *)
Fixpoint spin (events : list Event) (s : State) : outcome :=
  match events with
  | [] => Returned s
  | InputCloud w sensor_cloud :: rest =>
      match CloudCB w sensor_cloud s with
      | Returned s => spin rest s
      | o => o
      end
  | Keypress code :: rest => spin rest (KeyboardCB code s)
  end.

(** The three file names of capture number [count]. *)
Definition file_names (count : Z) : list string :=
  [ output_image_path count; output_pcd_path count;
    output_orig_pcd_path count ].

(** The files written are the three files of captures [0 .. k - 1], in
    order. *)
Definition files_in_order (k : Z) (s : State) : Prop :=
  0 <= k ∧ (files s).*1 = seqZ 0 k ≫= file_names.

Definition is_input_cloud (e : Event) : Prop :=
  match e with InputCloud _ _ => True | _ => False end.

End Node.
End Legacy.

(** ** Reference notions the properties are stated against *)

(** The statistical median of an odd number of values: the middle one of
    their ascending order. *)
Definition statistical_median (vals : list Z) : option Z :=
  sort_asc vals !! ((length vals - 1) / 2)%nat.

(** The element at a 1-indexed ordinal position of the ascending order. *)
Definition element_at_ordinal (vals : list Z) (ordinal : Z) : option Z :=
  if decide (1 <= ordinal) then sort_asc vals !! Z.to_nat (ordinal - 1)
  else None.

(** The ordinal position the even-count rule names: the integer part of
    [n / 2 + 0.5]. *)
Definition even_count_ordinal (n : nat) : Z :=
  static_cast_int (inject_Z (Z.of_nat n) / 2 + (1 # 2))%Q.

Section Reference.
Context {C : Collaborators}.

(** The pose that the payload of object [ii], read row-major, stands for
    ([default_Pose] when there is no such payload). *)
Definition pose_at (resp : LocalizeObjectsResponse) (ii : nat) : Pose :=
  default default_Pose
    (poseEigenToMsg <$> (object_transforms resp !! ii ≫= row_major)).

Definition bank_file (s : State) (model_name : string) : string :=
  default ""%string (model_bank_ s !! model_name).

(** The marker of object [ii]. *)
Definition marker_for (w : World) (resp : LocalizeObjectsResponse)
    (s : State) (ii : nat) (model_name : string) : Marker :=
  {| marker_frame_id := reference_frame_ (params s);
     marker_id := ii;
     marker_pose := pose_at resp ii;
     marker_color :=
       default [] (kColorPalette
                     !! Z.to_nat (rand w ii `mod` Z.of_nat (length kColorPalette)));
     mesh_resource := "file://" +:+ bank_file s model_name |}.

(** A response that honours the contract for [K] requested identifiers: a
    16-value payload for each of them, and a value for every statistic
    named. *)
Definition well_formed_response (K : nat) (resp : LocalizeObjectsResponse)
  : Prop :=
  (K ≤ length (object_transforms resp))%nat ∧
  Forall (λ data, (16 ≤ length data)%nat) (take K (object_transforms resp)) ∧
  (length (stats_field_names resp) ≤ length (stats resp))%nat.

(** The members that handling a response leaves alone. *)
Definition same_capture_state (s s' : State) : Prop :=
  params s' = params s ∧
  capture_kinect_ s' = capture_kinect_ s ∧
  cmd_rec_time_ s' = cmd_rec_time_ s ∧
  recent_observations_ s' = recent_observations_ s ∧
  recent_cloud_ s' = recent_cloud_ s ∧
  latest_requested_objects_ s' = latest_requested_objects_ s ∧
  object_localization_client_ s' = object_localization_client_ s ∧
  latest_call_success_ s' = latest_call_success_ s ∧
  perch_result_ s' = perch_result_ s ∧
  perch_server_ s' = perch_server_ s ∧
  rosout s' = rosout s.

(** The cloud that [CloudCB] appends for a message. *)
Definition pcl_cloud_of (w : World) (sensor_cloud : SensorCloud) (s : State)
  : PointCloud :=
  transformPointCloud (reference_frame_ (params s))
    (default unset_StampedTransform (frame_lookup w)) (cloud sensor_cloud).

(** The gate: armed, and not older than the request when staleness gating
    is on. *)
Definition accepts (sensor_cloud : SensorCloud) (s : State) : bool :=
  capture_kinect_ s &&
  negb (wait_for_recent_ (params s) &&
        bool_decide (stamp sensor_cloud < cmd_rec_time_ s)).

(** The state in which [CloudCB] has logged a failed lookup, if any, and
    appended the message's cloud. *)
Definition pushed (w : World) (sensor_cloud : SensorCloud) (s : State)
  : State :=
  let s1 := match frame_lookup w with
            | Some _ => s
            | None => ros_log ERROR_transform_exception s
            end in
  set_recent_observations_
    (recent_observations_ s1 ++ [pcl_cloud_of w sensor_cloud s1]) s1.

(** The buffer holds fewer clouds than the integration count asks for. *)
Definition still_collecting (s : State) : bool :=
  bool_decide (Z.of_nat (length (recent_observations_ s))
               < num_observations_to_integrate_ (params s)).

Definition process_state (p : Process) : State :=
  match p with Running s | Terminated s | UndefinedBehaviour s => s end.

Definition is_input_cloud (e : Event) : Prop :=
  match e with InputCloud _ _ => True | _ => False end.

(** A cloud stamped before [T]. *)
Definition is_stale_cloud (T : Time) (e : Event) : Prop :=
  match e with InputCloud _ sensor_cloud => stamp sensor_cloud < T | _ => False end.

(** Any event but a request on the direct channel. *)
Definition is_not_request (e : Event) : Prop :=
  match e with RequestedObject _ _ => False | _ => True end.

(** A cloud or a key: no request and no goal. *)
Definition is_cloud_or_key (e : Event) : Prop :=
  match e with InputCloud _ _ | Keypress _ => True | _ => False end.

(** A cloud, or a key that is not 'c'. *)
Definition is_cloud_or_other_key (e : Event) : Prop :=
  match e with
  | InputCloud _ _ => True
  | Keypress code => code `mod` 256 ≠ 99
  | _ => False
  end.

End Reference.

(** ** A test bench *)

(** Collaborators of a bench in which the sensor frame is the reference
    frame: transforms leave a cloud as it is, the pass-through filters keep
    every point, no plane is found, and a pose is written as its matrix. *)
Definition bench : Collaborators :=
  {| double := Q;
     double_lit := λ q, q;
     double_add := Qplus;
     double_sub := Qminus;
     StampedTransform := unit;
     unset_StampedTransform := tt;
     transformPointCloud := λ _ _ c, c;
     PassThrough := λ _ _ _ c, c;
     OrganizedSegmentation := λ _, [];
     IndexFilter := λ c _, c;
     camera_pose_msg := λ _, [];
     Pose := Matrix4 Q;
     default_Pose := ((0, 0, 0, 0), (0, 0, 0, 0), (0, 0, 0, 0), (0, 0, 0, 0))%Q;
     poseEigenToMsg := λ m, m |}.

(** A 1x1 organized cloud, with the header and sensor pose of a
    default-constructed cloud. *)
Definition pixel (depth : float) (red : Z) : PointCloud :=
  {| header := header new_PointCloud;
     points := [ {| p_x := Finite 0; p_y := Finite 0; p_z := depth;
                    p_r := red; p_g := 0; p_b := 0 |} ];
     width := 1; height := 1; is_dense := false;
     sensor_origin_ := sensor_origin_ new_PointCloud;
     sensor_orientation_ := sensor_orientation_ new_PointCloud |}.

(** The same cloud as a frame in the reference frame: with the header that
    the conversions give it. *)
Definition framed (t : Z) (c : PointCloud) : PointCloud :=
  {| header := {| header_seq := 0; header_stamp := t;
                  header_frame_id := "/base_footprint" |};
     points := points c; width := width c; height := height c;
     is_dense := is_dense c;
     sensor_origin_ := sensor_origin_ c;
     sensor_orientation_ := sensor_orientation_ c |}.

(** The node on the bench, with or without a viewer and staleness gating:
    table height 0 and the bounds 0..1 in x and y. *)
Definition bench_node (visualize recent : bool) : @State bench :=
  @PerceptionInterface bench visualize
    0%Q (* table_height *) 0%Q 0%Q (* xmin, ymin *) 1%Q 1%Q (* xmax, ymax *)
    "/base_footprint" "/head_mount_kinect_rgb_link" recent ∅.

Definition identity16 : list Q :=
  [1; 0; 0; 0;  0; 1; 0; 0;  0; 0; 1; 0;  0; 0; 0; 1]%Q.

(** A payload with distinct entries, to tell the two readings apart. *)
Definition counting16 : list Q :=
  [0; 1; 2; 3;  4; 5; 6; 7;  8; 9; 10; 11;  12; 13; 14; 15]%Q.

(** A localizer that answers every identifier with the same payload. *)
Definition answer_all (payload : list Q) (req : @LocalizeObjectsRequest bench)
  : option (@LocalizeObjectsResponse bench) :=
  Some (@mkResponse bench
          (replicate (length (object_ids req)) payload) [] []).

(** Worlds: every lookup resolves and the service answers; the service
    fails; the frame lookup throws; the camera lookup throws. *)
Definition world_ok : @World bench :=
  @mkWorld bench (Some tt) (Some tt) (answer_all identity16) (λ _, 0).
Definition world_service_down : @World bench :=
  @mkWorld bench (Some tt) (Some tt) (λ _, None) (λ _, 0).
Definition world_no_frame_tf : @World bench :=
  @mkWorld bench None (Some tt) (answer_all identity16) (λ _, 0).
Definition world_no_camera_tf : @World bench :=
  @mkWorld bench (Some tt) None (answer_all identity16) (λ _, 0).

Definition message (t : Time) (c : PointCloud) : SensorCloud :=
  {| stamp := t; frame_id := "/head_mount_kinect_rgb_link"; cloud := c |}.



(** A goal for two objects and the frame that completes its capture. *)
Definition two_objects : list (@Event bench) :=
  [ PerchGoal ["mug"; "bowl"];
    InputCloud world_ok (message 1 (pixel NaN 1)) ].

(** A capture requested by topic, then one requested by a goal. *)
Definition first_capture : list (@Event bench) :=
  [ RequestedObject "mug" 0;
    InputCloud world_ok (message 1 (pixel NaN 1)) ].
Definition second_capture : list (@Event bench) :=
  [ PerchGoal ["bowl"];
    InputCloud world_ok (message 2 (pixel NaN 2)) ].

(** The node with a goal for two objects accepted, and the answer of the
    bench's localizer to it. *)
Definition goal_pending : @State bench :=
  (PERCHGoalCB ["mug"; "bowl"] (bench_node true false)).1.
Definition two_payloads : @LocalizeObjectsResponse bench :=
  @mkResponse bench [counting16; counting16] [] [].
Definition world_counting : @World bench :=
  @mkWorld bench (Some tt) (Some tt) (answer_all counting16) (λ _, 0).

(** More inputs on the bench: a gate armed by topic, with and without
    staleness gating; a cloud without a return; a node of the earlier
    revision. *)
Definition armed_by_topic : @State bench :=
  RequestedObjectsCB "mug" 0 (bench_node true false).
Definition armed_at_10 : @State bench :=
  RequestedObjectsCB "mug" 10 (bench_node true true).
Definition no_return_message : SensorCloud := message 1 (pixel NaN 1).
Definition key_then_cloud : list (@Event bench) :=
  [ InputCloud world_ok no_return_message;
    Keypress 99;
    InputCloud world_ok no_return_message ].
Definition legacy_node : @Legacy.State bench :=
  @Legacy.PerceptionInterface bench true 0%Q "/base_link".

(** * Properties *)

(** ** The selection index *)

Lemma middle_of_eq (k : nat) : middle_of k = (Z.of_nat k + 1) / 2.
Proof.
  unfold middle_of, static_cast_int.
  change (Qnum (inject_Z (Z.of_nat k) / 2 + (1 # 2)))
    with (Z.of_nat k * 1 * 2 + 1 * 2).
  change (Z.pos (Qden (inject_Z (Z.of_nat k) / 2 + (1 # 2)))) with 4.
  rewrite Z.quot_div_nonneg by lia.
  Z.div_mod_to_equations. lia.
Qed.

Lemma middle_of_nonneg (k : nat) : 0 <= middle_of k.
Proof. rewrite middle_of_eq. Z.div_mod_to_equations. lia. Qed.

(** The index is inside a vector of [k] elements exactly when [k >= 2]. *)
Lemma middle_of_lt_iff (k : nat) :
  middle_of k < Z.of_nat k ↔ (2 ≤ k)%nat.
Proof.
  rewrite middle_of_eq. split; intros H; Z.div_mod_to_equations; lia.
Qed.

Lemma length_insert_asc (v : Z) (l : list Z) :
  length (insert_asc v l) = S (length l).
Proof.
  induction l as [|h t IH]; cbn; [reflexivity|].
  destruct (v <=? h); cbn; [reflexivity | now rewrite IH].
Qed.

Lemma length_sort_asc (l : list Z) : length (sort_asc l) = length l.
Proof.
  induction l as [|h t IH]; [reflexivity|].
  change (sort_asc (h :: t)) with (insert_asc h (sort_asc t)).
  rewrite length_insert_asc, IH. reflexivity.
Qed.

(** [sort_asc] sorts: its result is a rearrangement of its argument in
    ascending order. *)
Lemma insert_asc_Permutation (v : Z) (l : list Z) : insert_asc v l ≡ₚ v :: l.
Proof.
  induction l as [|h t IH]; simpl; [done|].
  destruct (v <=? h); [done|]. by rewrite IH, Permutation_swap.
Qed.

Lemma sort_asc_Permutation (l : list Z) : sort_asc l ≡ₚ l.
Proof.
  induction l as [|h t IH]; [done|].
  change (sort_asc (h :: t)) with (insert_asc h (sort_asc t)).
  by rewrite insert_asc_Permutation, IH.
Qed.

Lemma insert_asc_Sorted (v : Z) (l : list Z) :
  Sorted Z.le l → Sorted Z.le (insert_asc v l).
Proof.
  induction 1 as [|h t Ht IH Hhd]; simpl; [by repeat constructor|].
  destruct (Z.leb_spec v h) as [Hle|Hgt].
  - constructor; [by constructor | by constructor].
  - constructor; [exact IH|].
    destruct Hhd as [|h' t' Hh]; simpl; [constructor; lia|].
    destruct (Z.leb_spec v h'); constructor; lia.
Qed.

Lemma sort_asc_Sorted (l : list Z) : Sorted Z.le (sort_asc l).
Proof.
  induction l as [|h t IH]; [constructor|].
  change (sort_asc (h :: t)) with (insert_asc h (sort_asc t)).
  by apply insert_asc_Sorted.
Qed.

Lemma length_nth_element (l : list Z) (n : nat) :
  length (nth_element l n) = length l.
Proof. unfold nth_element. case_decide; [apply length_sort_asc | reflexivity]. Qed.

(** The read after [nth_element] yields a value exactly when the vector has
    at least two elements. *)
Lemma select_median_is_Some (l : list Z) :
  is_Some (select_median l) ↔ (2 ≤ length l)%nat.
Proof.
  unfold select_median. rewrite lookup_lt_is_Some, length_nth_element.
  rewrite <- middle_of_lt_iff. pose proof (middle_of_nonneg (length l)). lia.
Qed.

(** With at least two elements the value read is the one at zero-based
    position [(k + 1) / 2] of the ascending order. *)
Lemma select_median_sorted (l : list Z) :
  (2 ≤ length l)%nat →
  select_median l = sort_asc l !! Z.to_nat ((Z.of_nat (length l) + 1) / 2).
Proof.
  intros H. unfold select_median, nth_element.
  rewrite middle_of_eq. case_decide as Hlt; [reflexivity|].
  exfalso. apply Hlt. rewrite <- middle_of_eq.
  apply middle_of_lt_iff in H. pose proof (middle_of_nonneg (length l)). lia.
Qed.

(** In ordinal terms: with [k >= 2] values the value read is the one at
    the 1-indexed ordinal just above the integer part of [k / 2 + 0.5]. *)
Lemma select_median_next_ordinal (l : list Z) :
  (2 ≤ length l)%nat →
  select_median l
  = element_at_ordinal l (even_count_ordinal (length l) + 1).
Proof.
  intros H. rewrite select_median_sorted by done.
  unfold element_at_ordinal.
  change (even_count_ordinal (length l)) with (middle_of (length l)).
  pose proof (middle_of_nonneg (length l)).
  rewrite decide_True by lia. rewrite middle_of_eq. do 2 f_equal. lia.
Qed.

(** For an odd number [k >= 3] of values that is the position after the
    median's. *)
Lemma select_median_after_median (l : list Z) (m : nat) :
  length l = (2 * m + 3)%nat →
  statistical_median l = sort_asc l !! (m + 1)%nat ∧
  select_median l = sort_asc l !! (m + 2)%nat.
Proof.
  intros H. unfold statistical_median.
  rewrite select_median_sorted by lia. rewrite H. split; f_equal.
  - replace (2 * m + 3 - 1)%nat with ((m + 1) * 2)%nat by lia.
    by rewrite Nat.div_mul.
  - replace (Z.of_nat (2 * m + 3) + 1) with (Z.of_nat (m + 2) * 2) by lia.
    rewrite Z.div_mul by lia. lia.
Qed.

(** On 1x1 clouds of finite depth the integrator is [select_median] on the
    depths, in frame order. *)
Lemma collect_range_vals_pixels (vals : list Z) (red : Z) :
  collect_range_vals ((λ v, pixel (Finite v) red) <$> vals) 0 = Some vals.
Proof.
  induction vals as [|v vals IH]; [reflexivity|].
  cbn [fmap list_fmap collect_range_vals]. rewrite IH. reflexivity.
Qed.

Lemma IntegrateOrganizedClouds_pixels (v : Z) (vals : list Z) (red : Z) :
  IntegrateOrganizedClouds ((λ v, pixel (Finite v) red) <$> (v :: vals))
  = (λ m, pixel (Finite m) red) <$> select_median (v :: vals).
Proof.
  unfold IntegrateOrganizedClouds.
  cbn [fmap list_fmap pixel points length seq mapM].
  unfold integrate_point.
  pose proof (collect_range_vals_pixels (v :: vals) red) as Hc.
  cbn [fmap list_fmap] in Hc. rewrite Hc. cbn [mbind option_bind head].
  destruct (select_median (v :: vals)) as [m|]; reflexivity.
Qed.

(** ** What handling a response leaves alone *)

Section Frames.
Context {C : Collaborators}.

Lemma same_capture_state_refl (s : State) : same_capture_state s s.
Proof. repeat split. Qed.

Lemma same_capture_state_trans (s1 s2 s3 : State) :
  same_capture_state s1 s2 → same_capture_state s2 s3 →
  same_capture_state s1 s3.
Proof.
  unfold same_capture_state. intros H12 H23.
  destruct_and!. repeat split; congruence.
Qed.

Lemma localize_object_same w resp ii model_name (s : State) :
  same_capture_state s (final_state (localize_object w resp ii model_name s)).
Proof.
  destruct s. unfold localize_object, model_bank_file.
  repeat case_match; simplify_eq/=; repeat split.
Qed.

Lemma localize_objects_same w resp ids : ∀ ii (s : State),
  same_capture_state s (final_state (localize_objects w resp ii ids s)).
Proof.
  induction ids as [|model_name rest IH]; intros ii s.
  - apply same_capture_state_refl.
  - cbn [localize_objects].
    pose proof (localize_object_same w resp ii model_name s) as H1.
    destruct (localize_object w resp ii model_name s) as [s1|s1|s1];
      cbn [final_state] in *; [|exact H1..].
    eapply same_capture_state_trans; [exact H1 | apply IH].
Qed.

(** [CloudCBInternal] stores the cloud it is given in [recent_cloud_] and
    leaves the gate, the buffer and the requested identifiers alone. *)
Lemma CloudCBInternal_keeps w original_cloud (s : State) :
  let s' := final_state (CloudCBInternal w original_cloud s) in
  params s' = params s ∧
  capture_kinect_ s' = capture_kinect_ s ∧
  cmd_rec_time_ s' = cmd_rec_time_ s ∧
  recent_observations_ s' = recent_observations_ s ∧
  latest_requested_objects_ s' = latest_requested_objects_ s ∧
  recent_cloud_ s' = original_cloud.
Proof.
  unfold CloudCBInternal.
  destruct (camera_lookup w) as [transform|];
    [|destruct s; cbn; repeat split].
  set (s1 := set_recent_cloud_ original_cloud s).
  set (req := make_request s1 transform _).
  destruct (localizer w req) as [resp|].
  - case_decide; [destruct s; cbn; repeat split|].
    set (s2 := set_latest_object_poses_ (replicate _ _) _).
    pose proof (localize_objects_same w resp (object_ids req) 0%nat s2) as Hs.
    destruct (localize_objects w resp 0 (object_ids req) s2) as [s3|s3|s3];
      cbn [final_state] in *;
      destruct Hs as (Hp & Hk & Ht & Ho & Hc & Hr & _);
      try (destruct (isActive s3));
      destruct s3, s; cbn in *; repeat split; congruence.
  - destruct s; cbn. case_match; repeat split.
Qed.

End Frames.

(** ** The frame gate *)

Section Gate.
Context {C : Collaborators}.

(** Every frame that passes the gate is appended, transformed with whatever
    [transform] holds; nothing is ever removed by [CloudCB]. *)
Lemma CloudCB_buffer w sensor_cloud (s : State) :
  let s' := final_state (CloudCB w sensor_cloud s) in
  recent_observations_ s'
  = recent_observations_ s
    ++ (if accepts sensor_cloud s then [pcl_cloud_of w sensor_cloud s] else [])
  ∧ params s' = params s
  ∧ latest_requested_objects_ s' = latest_requested_objects_ s.
Proof.
  unfold CloudCB, accepts, pcl_cloud_of.
  destruct (capture_kinect_ s) eqn:Harmed; cbn [negb andb];
    [|cbn; rewrite app_nil_r; done].
  destruct (wait_for_recent_ (params s) && _) eqn:Hstale; cbn [negb].
  { destruct s; cbn. rewrite app_nil_r. done. }
  set (s1 := match frame_lookup w with
             | Some _ => s
             | None => ros_log ERROR_transform_exception s
             end).
  assert (params s1 = params s
          ∧ recent_observations_ s1 = recent_observations_ s
          ∧ latest_requested_objects_ s1 = latest_requested_objects_ s)
    as (Hp & Ho & Hr) by (subst s1; destruct (frame_lookup w), s; done).
  rewrite Hp.
  set (pcl_cloud := transformPointCloud _ _ _).
  set (s2 := set_recent_observations_ _ s1).
  assert (recent_observations_ s2 = recent_observations_ s ++ [pcl_cloud]
          ∧ params s2 = params s
          ∧ latest_requested_objects_ s2 = latest_requested_objects_ s)
    as (H2 & Hp2 & Hr2).
  { subst s2. clearbody s1 pcl_cloud. destruct s1; cbn in *.
    split_and!; congruence. }
  clearbody s2 s1 pcl_cloud.
  destruct (bool_decide (_ < num_observations_to_integrate_ _));
    cbn [final_state]; [auto|].
  destruct (IntegrateOrganizedClouds _); cbn [final_state]; [|auto].
  pose proof (CloudCBInternal_keeps w pcl_cloud s2) as K. cbv zeta in K.
  destruct (CloudCBInternal w pcl_cloud s2) as [s3|s3|s3];
    cbn [final_state] in *; destruct K as (Kp & _ & _ & Ko & Kr & _);
    [|split_and!; congruence..].
  destruct s3; cbn in *. split_and!; congruence.
Qed.

(** [CloudCB], step by step. *)
Lemma CloudCB_unfold w sensor_cloud (s : State) :
  CloudCB w sensor_cloud s
  = if negb (capture_kinect_ s) then Returned s else
    if wait_for_recent_ (params s)
       && bool_decide (stamp sensor_cloud < cmd_rec_time_ s)
    then Returned (ros_log WARN_cloud_too_old s) else
    let s2 := pushed w sensor_cloud s in
    if still_collecting s2 then Returned s2 else
    match IntegrateOrganizedClouds (recent_observations_ s2) with
    | None => Undefined s2
    | Some _ =>
        match CloudCBInternal w (pcl_cloud_of w sensor_cloud s) s2 with
        | Returned s3 => Returned (set_capture_kinect_ false s3)
        | o => o
        end
    end.
Proof.
  unfold CloudCB, pushed, pcl_cloud_of, still_collecting.
  destruct (frame_lookup w); [reflexivity|]. by destruct s.
Qed.

Lemma pushed_fields w sensor_cloud (s : State) :
  let s2 := pushed w sensor_cloud s in
  recent_observations_ s2
  = recent_observations_ s ++ [pcl_cloud_of w sensor_cloud s] ∧
  params s2 = params s ∧
  capture_kinect_ s2 = capture_kinect_ s ∧
  cmd_rec_time_ s2 = cmd_rec_time_ s ∧
  latest_requested_objects_ s2 = latest_requested_objects_ s ∧
  object_localization_client_ s2 = object_localization_client_ s ∧
  perch_server_ s2 = perch_server_ s ∧
  perch_result_ s2 = perch_result_ s ∧
  pose_pub_ s2 = pose_pub_ s ∧
  mesh_marker_pub_ s2 = mesh_marker_pub_ s.
Proof.
  unfold pushed, pcl_cloud_of. destruct (frame_lookup w), s; done.
Qed.

(** A cloud that passes the gate and fills the buffer: the callback ends as
    [CloudCBInternal] does on the frame just appended, whatever cloud the
    integrator returned. *)
Lemma CloudCB_full w sensor_cloud (s : State) integrated_cloud :
  accepts sensor_cloud s = true →
  still_collecting (pushed w sensor_cloud s) = false →
  IntegrateOrganizedClouds
    (recent_observations_ s ++ [pcl_cloud_of w sensor_cloud s])
  = Some integrated_cloud →
  CloudCB w sensor_cloud s
  = match CloudCBInternal w (pcl_cloud_of w sensor_cloud s)
            (pushed w sensor_cloud s) with
    | Returned s3 => Returned (set_capture_kinect_ false s3)
    | o => o
    end.
Proof.
  intros Hacc Hfull Hint. rewrite CloudCB_unfold. unfold accepts in Hacc.
  destruct (capture_kinect_ s); [|done]. cbn [negb andb] in *.
  destruct (wait_for_recent_ (params s) && _); [done|].
  cbv zeta. rewrite Hfull.
  pose proof (pushed_fields w sensor_cloud s) as F. cbv zeta in F.
  destruct F as (-> & _). by rewrite Hint.
Qed.

End Gate.

(** C2 (the code departs from it).  For the depths 1, 2, 3 the statistical
    median is 2 and the integrator yields 3; for the depths 1, 2 the
    element at ordinal 1 (the integer part of 2/2 + 0.5, 1-indexed) is 1 and
    the integrator yields 2. *)
Theorem integrated_depth_is_one_above :
  statistical_median [1; 2; 3] = Some 2 ∧
  IntegrateOrganizedClouds
    [pixel (Finite 1) 0; pixel (Finite 2) 0; pixel (Finite 3) 0]
  = Some (pixel (Finite 3) 0) ∧
  even_count_ordinal 2 = 1 ∧
  element_at_ordinal [1; 2] (even_count_ordinal 2) = Some 1 ∧
  IntegrateOrganizedClouds [pixel (Finite 1) 0; pixel (Finite 2) 0]
  = Some (pixel (Finite 2) 0).
Proof. vm_compute. repeat split. Qed.

(** C3 (the code departs from it).  With one finite depth value the
    selection index is 1, which equals the size of the scratch vector: the
    read after [nth_element] is one past its end, and integrating a single
    frame with a finite depth has no defined result. *)
Theorem middle_is_past_the_end_for_one_value (v : Z) :
  middle_of (length [v]) = Z.of_nat (length [v]) ∧
  select_median [v] = None ∧
  IntegrateOrganizedClouds [pixel (Finite v) 0] = None.
Proof. repeat split. Qed.

(** C4 (the code departs from it).  Whatever the state, a frame that passes
    the gate while the lookup of its transform throws is appended all the
    same, transformed with the transform that was never assigned.  On the
    bench, with a request pending and an empty buffer: the error is logged,
    the frame is appended, and as it completes the capture of the one frame
    the node integrates, a request is sent and the gate is disarmed. *)
Theorem frame_without_transform_is_buffered :
  (∀ (C : Collaborators) (w : World) sensor_cloud (s : State),
     frame_lookup w = None →
     accepts sensor_cloud s = true →
     recent_observations_ (final_state (CloudCB w sensor_cloud s))
     = recent_observations_ s
       ++ [transformPointCloud (reference_frame_ (params s))
             unset_StampedTransform (cloud sensor_cloud)]) ∧
  let frame := message 1 (pixel NaN 1) in
  let s1 := RequestedObjectsCB "mug" 0 (bench_node true false) in
  let s' := final_state (CloudCB world_no_frame_tf frame s1) in
  capture_kinect_ s1 = true ∧
  recent_observations_ s1 = [] ∧
  pushed world_no_frame_tf frame s1
  = set_recent_observations_ [pixel NaN 1]
      (ros_log ERROR_transform_exception s1) ∧
  rosout s' = [ERROR_transform_exception] ∧
  recent_observations_ s' = [pixel NaN 1] ∧
  length (object_localization_client_ s') = 1%nat ∧
  capture_kinect_ s' = false.
Proof.
  split; [|vm_compute; repeat split].
  intros C w sensor_cloud s Hw Hacc.
  pose proof (CloudCB_buffer w sensor_cloud s) as K. cbv zeta in K.
  destruct K as (-> & _). rewrite Hacc. unfold pcl_cloud_of. by rewrite Hw.
Qed.

(** C5 (the code departs from it).  Whatever the state, when a frame
    completes a capture and the camera transform cannot be resolved, the
    exception leaves [CloudCBInternal], [CloudCB] and [main]: the process
    ends there, with the gate, the goal and the requests sent as they were,
    and no event that follows is handled.  On the bench: a goal for one
    object is active, the frame completes the capture and the lookup throws;
    the process ends with the goal still active and the gate still armed,
    and the request that follows is never handled. *)
Theorem camera_lookup_failure_ends_the_process :
  (∀ (C : Collaborators) (w : World) sensor_cloud (s : State)
     integrated_cloud (rest : list Event),
     accepts sensor_cloud s = true →
     still_collecting (pushed w sensor_cloud s) = false →
     IntegrateOrganizedClouds
       (recent_observations_ s ++ [pcl_cloud_of w sensor_cloud s])
     = Some integrated_cloud →
     camera_lookup w = None →
     ∃ s', spin (InputCloud w sensor_cloud :: rest) s = Terminated s' ∧
           perch_server_ s' = perch_server_ s ∧
           capture_kinect_ s' = true ∧
           latest_requested_objects_ s' = latest_requested_objects_ s ∧
           object_localization_client_ s' = object_localization_client_ s) ∧
  let events := [ PerchGoal ["mug"];
                  InputCloud world_no_camera_tf (message 1 (pixel NaN 1));
                  RequestedObject "bowl" 2 ] in
  ∃ s, spin events (bench_node true false) = Terminated s ∧
       perch_server_ s = Active ∧
       capture_kinect_ s = true ∧
       latest_requested_objects_ s = ["mug"] ∧
       object_localization_client_ s = [].
Proof.
  split; [|eexists; vm_compute; repeat split].
  intros C w sensor_cloud s integrated_cloud rest Hacc Hfull Hint Hcam.
  pose proof (pushed_fields w sensor_cloud s) as F. cbv zeta in F.
  destruct F as (Fo & _ & Fk & _ & Fr & Fc & Fg & _).
  exists (set_recent_cloud_ (pcl_cloud_of w sensor_cloud s)
            (pushed w sensor_cloud s)).
  cbn [spin dispatch]. rewrite (CloudCB_full w sensor_cloud s integrated_cloud)
    by done.
  unfold CloudCBInternal. rewrite Hcam.
  unfold accepts in Hacc. apply andb_true_iff in Hacc as [Harmed _].
  split; [done|]. destruct (pushed w sensor_cloud s); cbn in *.
  split_and!; congruence.
Qed.

(** ** Requests, goals and the buffer *)

Section Requests.
Context {C : Collaborators}.

Lemma pcl_cloud_of_params w sensor_cloud (s s' : State) :
  params s' = params s →
  pcl_cloud_of w sensor_cloud s' = pcl_cloud_of w sensor_cloud s.
Proof. unfold pcl_cloud_of. intros ->. reflexivity. Qed.

(** While only clouds arrive, the buffer only grows, and only by clouds made
    from those messages. *)
Lemma spin_clouds_buffer (events : list Event) : ∀ s : State,
  Forall is_input_cloud events →
  ∃ extra,
    recent_observations_ (process_state (spin events s))
    = recent_observations_ s ++ extra ∧
    Forall (λ c, ∃ w sensor_cloud,
                   InputCloud w sensor_cloud ∈ events ∧
                   c = pcl_cloud_of w sensor_cloud s) extra ∧
    params (process_state (spin events s)) = params s.
Proof.
  induction events as [|e rest IH]; intros s Hall.
  - exists []. cbn. rewrite app_nil_r. done.
  - apply Forall_cons in Hall as [He Hrest].
    destruct e as [w sensor_cloud| | |]; try done.
    pose proof (CloudCB_buffer w sensor_cloud s) as K. cbv zeta in K.
    destruct K as (Kb & Kp & _).
    set (new := if accepts sensor_cloud s
                then [pcl_cloud_of w sensor_cloud s] else []) in Kb.
    assert (Forall (λ c, ∃ w0 m0, InputCloud w0 m0 ∈ InputCloud w sensor_cloud :: rest
                                  ∧ c = pcl_cloud_of w0 m0 s) new) as Hnew.
    { subst new. destruct (accepts sensor_cloud s); [|constructor].
      repeat constructor. exists w, sensor_cloud. split; [left|done]. }
    cbn [spin dispatch].
    destruct (CloudCB w sensor_cloud s) as [s1|s1|s1]; cbn [final_state] in *;
      [|exists new; done..].
    destruct (IH s1 Hrest) as (extra & Hb & Hf & Hp).
    exists (new ++ extra). rewrite Hb, Kb, <- app_assoc. split_and!; [done| |congruence].
    apply Forall_app. split; [done|].
    eapply Forall_impl; [exact Hf|]. cbn.
    intros c (w0 & m0 & Hin & ->). exists w0, m0.
    split; [by right | by apply pcl_cloud_of_params].
Qed.

(** While the gate is disarmed clouds change nothing. *)
Lemma spin_clouds_disarmed (events : list Event) (s : State) :
  capture_kinect_ s = false →
  Forall is_input_cloud events →
  spin events s = Running s.
Proof.
  intros Hoff. induction 1 as [|e rest He _ IH]; [done|].
  destruct e as [w sensor_cloud| | |]; try done.
  cbn [spin dispatch]. unfold CloudCB. rewrite Hoff. exact IH.
Qed.

(** C7 (amended).  A request on the direct channel empties the buffer;
    [CloudCB] never removes a frame from it, not after an integration
    either; so until the next trigger the buffer, and with it every
    integration, holds only frames made from clouds that arrived after the
    request. *)
Theorem direct_request_starts_from_empty_buffer
    object_name now (s : State) (events : list Event) :
  Forall is_input_cloud events →
  let s1 := RequestedObjectsCB object_name now s in
  recent_observations_ s1 = [] ∧
  (∀ w sensor_cloud (s' : State),
     recent_observations_ s'
     `prefix_of` recent_observations_ (final_state (CloudCB w sensor_cloud s'))) ∧
  Forall (λ c, ∃ w sensor_cloud,
                 InputCloud w sensor_cloud ∈ events ∧
                 c = pcl_cloud_of w sensor_cloud s1)
         (recent_observations_ (process_state (spin events s1))).
Proof.
  intros Hall s1.
  assert (recent_observations_ s1 = []) as Hempty.
  { subst s1. unfold RequestedObjectsCB. destruct s; cbn. by case_match. }
  split_and!; [done| |].
  - intros w sensor_cloud s'.
    pose proof (CloudCB_buffer w sensor_cloud s') as K. cbv zeta in K.
    destruct K as (-> & _). by eexists.
  - destruct (spin_clouds_buffer events s1 Hall) as (extra & -> & Hf & _).
    by rewrite Hempty.
Qed.

(** C9.  From a disarmed gate, a goal with no identifiers is refused: the
    callback returns false, the goal is aborted with an empty result, the
    gate stays disarmed, the buffer is as it was, and the clouds that
    follow are all dropped. *)
Theorem empty_goal_is_aborted (s : State) (events : list Event) :
  capture_kinect_ s = false →
  Forall is_input_cloud events →
  let s' := (PERCHGoalCB [] s).1 in
  (PERCHGoalCB [] s).2 = false ∧
  perch_server_ s' = Aborted [] ∧
  perch_result_ s' = [] ∧
  capture_kinect_ s' = false ∧
  recent_observations_ s' = recent_observations_ s ∧
  spin events s' = Running s'.
Proof.
  intros Hoff Hall s'.
  assert (capture_kinect_ s' = false) as Hoff'
    by (subst s'; destruct s; exact Hoff).
  split_and!; try (subst s'; destruct s; done).
  by apply spin_clouds_disarmed.
Qed.

(** C10.  With staleness gating on, a direct request records its time as
    the issue timestamp; an armed gate drops, with a warning and without
    touching the buffer, every cloud stamped before the issue timestamp,
    and appends every cloud stamped at or after it, in particular one
    stamped one tick later. *)
Theorem staleness_gate w sensor_cloud (s : State) :
  wait_for_recent_ (params s) = true →
  capture_kinect_ s = true →
  let T := cmd_rec_time_ s in
  (∀ object_name now,
     cmd_rec_time_ (RequestedObjectsCB object_name now s) = now) ∧
  (stamp sensor_cloud < T →
     CloudCB w sensor_cloud s = Returned (ros_log WARN_cloud_too_old s) ∧
     recent_observations_ (ros_log WARN_cloud_too_old s)
     = recent_observations_ s ∧
     capture_kinect_ (ros_log WARN_cloud_too_old s) = true ∧
     cmd_rec_time_ (ros_log WARN_cloud_too_old s) = T) ∧
  (T ≤ stamp sensor_cloud →
     recent_observations_ (final_state (CloudCB w sensor_cloud s))
     = recent_observations_ s ++ [pcl_cloud_of w sensor_cloud s]) ∧
  (stamp sensor_cloud = T + 1 →
     recent_observations_ (final_state (CloudCB w sensor_cloud s))
     = recent_observations_ s ++ [pcl_cloud_of w sensor_cloud s]).
Proof.
  intros Hgate Harmed T.
  assert (T ≤ stamp sensor_cloud →
          recent_observations_ (final_state (CloudCB w sensor_cloud s))
          = recent_observations_ s ++ [pcl_cloud_of w sensor_cloud s]) as Hfresh.
  { intros Hle. pose proof (CloudCB_buffer w sensor_cloud s) as K.
    cbv zeta in K. destruct K as (-> & _). unfold accepts.
    rewrite Harmed, Hgate, bool_decide_false by (subst T; lia). done. }
  split_and!.
  - intros object_name now. unfold RequestedObjectsCB.
    destruct s; cbn in *. by rewrite Hgate.
  - intros Hold. unfold CloudCB.
    rewrite Harmed, Hgate, bool_decide_true by done.
    destruct s; cbn in *. done.
  - exact Hfresh.
  - intros Heq. apply Hfresh. lia.
Qed.

End Requests.

(** ** The response *)

Lemma transpose_Matrix4d_of_data {A : Type} (data : list A) :
  transpose <$> Matrix4d_of_data data = row_major data.
Proof.
  do 16 (destruct data as [|? data]; [reflexivity|]). reflexivity.
Qed.

Lemma row_major_is_Some {A : Type} (data : list A) :
  (16 ≤ length data)%nat → is_Some (row_major data).
Proof.
  intros H. do 16 (destruct data as [|? data]; [cbn in H; lia|]). by eexists.
Qed.

Section Response.
Context {C : Collaborators}.

Lemma marker_for_ext w resp (s s' : State) ii model_name :
  params s' = params s →
  (∀ name, bank_file s' name = bank_file s name) →
  marker_for w resp s' ii model_name = marker_for w resp s ii model_name.
Proof. unfold marker_for. intros -> ->. reflexivity. Qed.

(** One round of the loop, when the payload is there and a viewer exists. *)
Lemma localize_object_spec w resp ii model_name (s : State) :
  pcl_visualization_ (params s) = true →
  is_Some (object_transforms resp !! ii ≫= row_major) →
  ∃ s', localize_object w resp ii model_name s = Returned s' ∧
    latest_object_poses_ s'
    = <[ii := pose_at resp ii]> (latest_object_poses_ s) ∧
    pose_pub_ s'
    = pose_pub_ s ++ (if decide (ii = 0%nat) then [pose_at resp ii] else []) ∧
    mesh_marker_pub_ s'
    = mesh_marker_pub_ s ++ [marker_for w resp s ii model_name] ∧
    perch_server_ s' = perch_server_ s ∧
    params s' = params s ∧
    (∀ name, bank_file s' name = bank_file s name).
Proof.
  intros Hviz [m Hm].
  assert (∃ data eigen_pose,
            object_transforms resp !! ii = Some data ∧
            Matrix4d_of_data data = Some eigen_pose ∧
            pose_at resp ii = poseEigenToMsg (transpose eigen_pose))
    as (data & eigen_pose & Hd & He & Hpose).
  { unfold pose_at. rewrite Hm.
    destruct (object_transforms resp !! ii) as [data|]; [|done].
    cbn [mbind option_bind] in Hm.
    rewrite <- transpose_Matrix4d_of_data in Hm.
    destruct (Matrix4d_of_data data) as [eigen_pose|] eqn:He; [|done].
    cbn in Hm. simplify_eq. by exists data, eigen_pose. }
  unfold localize_object. rewrite Hd. cbn [mbind option_bind].
  unfold marker_for, bank_file, model_bank_file. rewrite He, Hpose.
  destruct (model_bank_ s !! model_name) as [file|] eqn:Hfile.
  - rewrite Hviz. cbn [negb].
    eexists. split; [reflexivity|].
    destruct s; cbn in *.
    case_decide; rewrite ?app_nil_r; split_and!; done.
  - assert (pcl_visualization_
              (params (set_model_bank_
                         (<[model_name := ""%string]> (model_bank_ s)) s))
            = true) as -> by (destruct s; exact Hviz).
    cbn [negb]. eexists. split; [reflexivity|].
    destruct s; cbn -[insert lookup] in *.
    case_decide; rewrite ?app_nil_r; split_and!; try done.
    all: intros name; cbn [model_bank_];
      destruct (decide (name = model_name)) as [->|Hne];
      [by rewrite lookup_insert_eq, Hfile | by rewrite lookup_insert_ne].
Qed.

(** The whole loop. *)
Lemma localize_objects_spec w resp ids : ∀ ii (s : State),
  pcl_visualization_ (params s) = true →
  (∀ j, (j < length ids)%nat →
        is_Some (object_transforms resp !! (ii + j)%nat ≫= row_major)) →
  ∃ s', localize_objects w resp ii ids s = Returned s' ∧
    length (latest_object_poses_ s') = length (latest_object_poses_ s) ∧
    (∀ j, latest_object_poses_ s' !! j
          = if decide ((ii ≤ j < ii + length ids)%nat
                       ∧ (j < length (latest_object_poses_ s))%nat)
            then Some (pose_at resp j)
            else latest_object_poses_ s !! j) ∧
    pose_pub_ s'
    = pose_pub_ s ++ (match ids with
                      | [] => []
                      | _ => if decide (ii = 0%nat) then [pose_at resp 0] else []
                      end) ∧
    mesh_marker_pub_ s'
    = mesh_marker_pub_ s
      ++ imap (λ j name, marker_for w resp s (ii + j) name) ids ∧
    perch_server_ s' = perch_server_ s ∧
    params s' = params s.
Proof.
  induction ids as [|model_name rest IH]; intros ii s Hviz Hall.
  - exists s. cbn. rewrite !app_nil_r. split_and!; try done.
    intros j. case_decide; [lia|done].
  - destruct (localize_object_spec w resp ii model_name s Hviz)
      as (s1 & Hstep & Hl1 & Hp1 & Hm1 & Hg1 & Hpar1 & Hbank1).
    { specialize (Hall 0%nat). rewrite Nat.add_0_r in Hall.
      apply Hall. cbn. lia. }
    destruct (IH (S ii) s1) as (s' & Hloop & Hlen & Hl & Hp & Hm & Hg & Hpar).
    { by rewrite Hpar1. }
    { intros j Hj. replace (S ii + j)%nat with (ii + S j)%nat by lia.
      apply Hall. cbn. lia. }
    exists s'. cbn [localize_objects]. rewrite Hstep.
    split_and!; [exact Hloop | | | | | congruence | congruence].
    + by rewrite Hlen, Hl1, length_insert.
    + intros j. rewrite Hl, Hl1, length_insert, list_lookup_insert.
      cbn [length]. repeat case_decide; try done; try lia.
      all: destruct_and?; subst; try done; try lia.
      all: exfalso; lia.
    + rewrite Hp, Hp1, <- app_assoc. f_equal.
      destruct rest; repeat case_decide; subst; try done;
        by rewrite ?app_nil_r.
    + rewrite Hm, Hm1, <- app_assoc. cbn [app]. rewrite imap_cons.
      rewrite Nat.add_0_r. do 2 f_equal.
      apply imap_ext. intros j name _. cbn.
      rewrite (marker_for_ext w resp s s1) by done. f_equal. lia.
Qed.

Lemma make_request_recent_cloud (s : State) c transform cloud' :
  make_request (set_recent_cloud_ c s) transform cloud'
  = make_request s transform cloud' ∧
  params (set_recent_cloud_ c s) = params s.
Proof. by destruct s. Qed.

Lemma well_formed_payloads K resp :
  well_formed_response K resp →
  ∀ j, (j < K)%nat → is_Some (object_transforms resp !! j ≫= row_major).
Proof.
  intros (Hlen & Hall & _) j Hj.
  destruct (lookup_lt_is_Some_2 (object_transforms resp) j) as [data Hd];
    [lia|].
  rewrite Hd. cbn. apply row_major_is_Some.
  rewrite Forall_lookup in Hall. apply (Hall j).
  by rewrite lookup_take_lt.
Qed.

(** A failed call: no pose, nothing published, an active goal aborted. *)
Lemma CloudCBInternal_failure w original_cloud (s : State) transform :
  camera_lookup w = Some transform →
  localizer w (make_request s transform
                 (table_removed (params s) original_cloud)) = None →
  ∃ s', CloudCBInternal w original_cloud s = Returned s' ∧
    latest_object_poses_ s' = [] ∧
    latest_call_success_ s' = false ∧
    pose_pub_ s' = pose_pub_ s ∧
    mesh_marker_pub_ s' = mesh_marker_pub_ s ∧
    (isActive s = true → perch_server_ s' = Aborted [] ∧ perch_result_ s' = []).
Proof.
  intros Hcam Hloc. unfold CloudCBInternal. rewrite Hcam.
  destruct (make_request_recent_cloud s original_cloud transform
              (table_removed (params s) original_cloud)) as [Hreq Hpar].
  rewrite Hpar, Hreq, Hloc. eexists. split; [reflexivity|].
  destruct s as [? ? ? ? ? ? ? ? ? ? server ? ? ? ?]; unfold isActive; cbn.
  destruct server; cbn; split_and!; done.
Qed.

(** A successful call answered by a well-formed response, with a viewer:
    one pose per identifier, each the row-major reading of its payload; one
    marker per identifier; the first pose published; an active goal
    succeeded with all the poses. *)
Lemma CloudCBInternal_success w original_cloud (s : State) transform resp :
  camera_lookup w = Some transform →
  localizer w (make_request s transform
                 (table_removed (params s) original_cloud)) = Some resp →
  well_formed_response (length (latest_requested_objects_ s)) resp →
  pcl_visualization_ (params s) = true →
  ∃ s', CloudCBInternal w original_cloud s = Returned s' ∧
    latest_object_poses_ s'
    = pose_at resp <$> seq 0 (length (latest_requested_objects_ s)) ∧
    latest_call_success_ s' = true ∧
    pose_pub_ s' = pose_pub_ s ++ take 1 (latest_object_poses_ s') ∧
    mesh_marker_pub_ s'
    = mesh_marker_pub_ s
      ++ imap (marker_for w resp s) (latest_requested_objects_ s) ∧
    (isActive s = true →
     perch_server_ s' = Succeeded (latest_object_poses_ s')) ∧
    (isActive s = true → perch_result_ s' = latest_object_poses_ s') ∧
    (isActive s = false →
     perch_server_ s' = perch_server_ s ∧ perch_result_ s' = perch_result_ s).
Proof.
  intros Hcam Hloc Hwf Hviz. unfold CloudCBInternal. rewrite Hcam.
  destruct (make_request_recent_cloud s original_cloud transform
              (table_removed (params s) original_cloud)) as [Hreq Hpar].
  rewrite Hpar, Hreq, Hloc.
  rewrite decide_False by (destruct Hwf as (_ & _ & ?); lia).
  set (req := make_request s transform _).
  assert (object_ids req = latest_requested_objects_ s) as Hids by done.
  rewrite Hids. set (K := length (latest_requested_objects_ s)) in *.
  set (s2 := set_latest_object_poses_ (replicate K default_Pose) _).
  assert (params s2 = params s ∧
          latest_object_poses_ s2 = replicate K default_Pose ∧
          latest_call_success_ s2 = true ∧
          pose_pub_ s2 = pose_pub_ s ∧
          mesh_marker_pub_ s2 = mesh_marker_pub_ s ∧
          perch_server_ s2 = perch_server_ s ∧
          perch_result_ s2 = perch_result_ s ∧
          (∀ name, bank_file s2 name = bank_file s name))
    as (Hp2 & Hl2 & Hc2 & Hpp2 & Hm2 & Hg2 & Hr2 & Hb2)
    by (subst s2; destruct s; done).
  destruct (localize_objects_spec w resp (latest_requested_objects_ s) 0%nat s2)
    as (s3 & Hloop & Hlen & Hl & Hpp & Hm & Hg & Hp3).
  { by rewrite Hp2. }
  { intros j Hj. by apply (well_formed_payloads K). }
  pose proof (localize_objects_same w resp (latest_requested_objects_ s) 0%nat s2)
    as Hsame. rewrite Hloop in Hsame. cbn [final_state] in Hsame.
  rewrite Hloop.
  assert (latest_object_poses_ s3 = pose_at resp <$> seq 0 K) as Hposes.
  { apply list_eq. intros j. rewrite Hl, Hl2, length_replicate, list_lookup_fmap.
    fold K. destruct (decide (j < K)%nat).
    - rewrite decide_True by lia. by rewrite lookup_seq_lt.
    - rewrite decide_False by lia.
      rewrite lookup_seq_ge by lia. by apply lookup_replicate_None; lia. }
  assert (latest_call_success_ s3 = true) as Hc3.
  { destruct Hsame as (_ & _ & _ & _ & _ & _ & _ & -> & _). exact Hc2. }
  assert (pose_pub_ s3 = pose_pub_ s ++ take 1 (pose_at resp <$> seq 0 K))
    as Hpub.
  { rewrite Hpp, Hpp2. f_equal. subst K.
    destruct (latest_requested_objects_ s); [done|]. by rewrite decide_True. }
  assert (mesh_marker_pub_ s3
          = mesh_marker_pub_ s
            ++ imap (marker_for w resp s) (latest_requested_objects_ s))
    as Hmark.
  { rewrite Hm, Hm2. f_equal. apply imap_ext. intros j name _. cbn.
    by apply marker_for_ext. }
  assert (isActive s3 = isActive s) as Hact
    by (unfold isActive; by rewrite Hg, Hg2).
  assert (perch_result_ s3 = perch_result_ s) as Hres.
  { destruct Hsame as (_ & _ & _ & _ & _ & _ & _ & _ & -> & _). exact Hr2. }
  rewrite Hact. eexists. split; [reflexivity|].
  destruct (isActive s) eqn:Hs.
  - destruct s3; cbn in *. subst. split_and!; done.
  - rewrite Hposes. split_and!; try done. intros _. split; congruence.
Qed.

(** C6 (amended).  After a successful call answered by a well-formed
    response, with a viewer, the node has sent one marker per requested
    identifier, marker [ii] carrying pose [ii], and has published on the
    pose topic the pose of the first identifier only (nothing when no
    identifier was requested).  All K poses, pose [ii] made from payload
    [ii], are stored in [latest_object_poses_]; a goal that is active
    succeeds with all of them as its result, and they are kept in
    [perch_result_]; without an active goal the server and its result are
    left as they were. *)
Theorem markers_for_all_pose_for_first
    w original_cloud (s : State) transform resp :
  camera_lookup w = Some transform →
  localizer w (make_request s transform
                 (table_removed (params s) original_cloud)) = Some resp →
  well_formed_response (length (latest_requested_objects_ s)) resp →
  pcl_visualization_ (params s) = true →
  ∃ s', CloudCBInternal w original_cloud s = Returned s' ∧
    length (latest_object_poses_ s') = length (latest_requested_objects_ s) ∧
    latest_object_poses_ s'
    = pose_at resp <$> seq 0 (length (latest_requested_objects_ s)) ∧
    (isActive s = true →
     perch_server_ s' = Succeeded (latest_object_poses_ s') ∧
     perch_result_ s' = latest_object_poses_ s') ∧
    (isActive s = false →
     perch_server_ s' = perch_server_ s ∧ perch_result_ s' = perch_result_ s) ∧
    pose_pub_ s' = pose_pub_ s ++ take 1 (latest_object_poses_ s') ∧
    length (mesh_marker_pub_ s')
    = (length (mesh_marker_pub_ s) + length (latest_requested_objects_ s))%nat ∧
    marker_pose <$> drop (length (mesh_marker_pub_ s)) (mesh_marker_pub_ s')
    = latest_object_poses_ s' ∧
    marker_id <$> drop (length (mesh_marker_pub_ s)) (mesh_marker_pub_ s')
    = seq 0 (length (latest_requested_objects_ s)).
Proof.
  intros Hcam Hloc Hwf Hviz.
  destruct (CloudCBInternal_success w original_cloud s transform resp)
    as (s' & Hrun & Hposes & _ & Hpub & Hmark & Hgoal & Hres & Hidle);
    try done.
  exists s'. rewrite Hmark, drop_app_length, length_app, length_imap.
  assert (perch_server_ s' = Succeeded (latest_object_poses_ s')
          ↔ perch_server_ s'
            = Succeeded (pose_at resp
                           <$> seq 0 (length (latest_requested_objects_ s))))
    as Hsame by (by rewrite Hposes).
  rewrite Hposes in *.
  rewrite length_fmap, length_seq. split_and!; try done.
  - intros Hact. split; [by apply Hsame, Hgoal | by apply Hres].
  - apply list_eq. intros j.
    rewrite !list_lookup_fmap, list_lookup_imap.
    destruct (decide (j < length (latest_requested_objects_ s))%nat) as [Hj|Hj].
    + rewrite lookup_seq_lt by done.
      destruct (lookup_lt_is_Some_2 _ _ Hj) as [name ->]. done.
    + rewrite lookup_seq_ge, lookup_ge_None_2 by lia. done.
  - apply list_eq. intros j.
    rewrite !list_lookup_fmap, list_lookup_imap.
    destruct (decide (j < length (latest_requested_objects_ s))%nat) as [Hj|Hj].
    + rewrite lookup_seq_lt by done.
      destruct (lookup_lt_is_Some_2 _ _ Hj) as [name ->]. done.
    + rewrite lookup_seq_ge, lookup_ge_None_2 by lia. done.
Qed.

(** X22.  On a node constructed with a viewer: when the service call fails
    no pose is produced: the result list is empty, the call is recorded as
    failed, nothing is published and an active goal is aborted with an
    empty result.  When it succeeds with a well-formed response for the K
    requested identifiers, exactly K poses are produced, pose [ii] being
    made from the payload of identifier [ii] read as a row-major 4x4
    matrix, which is the transpose of its column-major reading; an active
    goal succeeds with them. *)
Theorem dispatch_results w original_cloud (s : State) transform answer :
  camera_lookup w = Some transform →
  localizer w (make_request s transform
                 (table_removed (params s) original_cloud)) = answer →
  (∀ resp, answer = Some resp →
     well_formed_response (length (latest_requested_objects_ s)) resp ∧
     pcl_visualization_ (params s) = true) →
  ∃ s', CloudCBInternal w original_cloud s = Returned s' ∧
    match answer with
    | None =>
        latest_object_poses_ s' = [] ∧
        latest_call_success_ s' = false ∧
        pose_pub_ s' = pose_pub_ s ∧
        mesh_marker_pub_ s' = mesh_marker_pub_ s ∧
        (isActive s = true →
         perch_server_ s' = Aborted [] ∧ perch_result_ s' = [])
    | Some resp =>
        length (latest_object_poses_ s')
        = length (latest_requested_objects_ s) ∧
        Forall2 (λ pose data,
                   ∃ eigen_pose,
                     Matrix4d_of_data data = Some eigen_pose ∧
                     row_major data = Some (transpose eigen_pose) ∧
                     pose = poseEigenToMsg (transpose eigen_pose))
                (latest_object_poses_ s')
                (take (length (latest_requested_objects_ s))
                      (object_transforms resp)) ∧
        (isActive s = true →
         perch_server_ s' = Succeeded (latest_object_poses_ s'))
    end.
Proof.
  intros Hcam Hloc Hok. destruct answer as [resp|].
  - destruct (Hok resp eq_refl) as [Hwf Hviz].
    destruct (CloudCBInternal_success w original_cloud s transform resp)
      as (s' & Hrun & Hposes & _ & _ & _ & Hgoal & _); try done.
    exists s'. split; [done|]. rewrite Hposes.
    rewrite length_fmap, length_seq. split_and!; [done| |by rewrite <- Hposes].
    set (K := length (latest_requested_objects_ s)) in *.
    apply Forall2_same_length_lookup. split.
    { destruct Hwf as (Hlen & _). rewrite length_fmap, length_seq, length_take. lia. }
    intros j pose data Hj Hdata.
    apply lookup_take_Some in Hdata as [Hdata HjK].
    rewrite list_lookup_fmap, lookup_seq_lt in Hj by done.
    cbn in Hj. simplify_eq. unfold pose_at. rewrite Hdata. cbn.
    destruct (well_formed_payloads K resp Hwf j HjK) as [m Hm].
    rewrite Hdata in Hm. cbn in Hm.
    pose proof (transpose_Matrix4d_of_data data) as Ht. rewrite Hm in Ht.
    destruct (Matrix4d_of_data data) as [eigen_pose|]; [|done].
    cbn in Ht. simplify_eq. exists eigen_pose. by rewrite Hm.
  - destruct (CloudCBInternal_failure w original_cloud s transform)
      as (s' & Hrun & H); try done.
    by exists s'.
Qed.

(** Without a viewer the first round of the result loop ends at the call
    through [viewer_], before any pose is stored or published. *)
Lemma localize_object_without_viewer w resp ii model_name (s : State) :
  pcl_visualization_ (params s) = false →
  is_Some (object_transforms resp !! ii ≫= row_major) →
  ∃ s', localize_object w resp ii model_name s = Undefined s' ∧
    latest_object_poses_ s' = latest_object_poses_ s ∧
    pose_pub_ s' = pose_pub_ s ∧
    mesh_marker_pub_ s' = mesh_marker_pub_ s ∧
    same_capture_state s s'.
Proof.
  intros Hviz [m Hm]. unfold localize_object.
  destruct (object_transforms resp !! ii) as [data|]; [|done].
  cbn [mbind option_bind] in *.
  rewrite <- transpose_Matrix4d_of_data in Hm.
  destruct (Matrix4d_of_data data) as [eigen_pose|]; [|done].
  unfold model_bank_file.
  destruct (model_bank_ s !! model_name) as [file|].
  - rewrite Hviz. cbn [negb]. exists s.
    split_and!; try done; apply same_capture_state_refl.
  - destruct s; cbn in *. rewrite Hviz. cbn [negb].
    eexists. split; [reflexivity|]. cbn.
    split_and!; try done; repeat split.
Qed.

(** The result loop of a node without a viewer, for a non-empty request. *)
Lemma CloudCBInternal_without_viewer
    w original_cloud (s : State) transform resp :
  pcl_visualization_ (params s) = false →
  latest_requested_objects_ s ≠ [] →
  camera_lookup w = Some transform →
  localizer w (make_request s transform
                 (table_removed (params s) original_cloud)) = Some resp →
  well_formed_response (length (latest_requested_objects_ s)) resp →
  ∃ s', CloudCBInternal w original_cloud s = Undefined s' ∧
    latest_call_success_ s' = true ∧
    latest_object_poses_ s'
    = replicate (length (latest_requested_objects_ s)) default_Pose ∧
    pose_pub_ s' = pose_pub_ s ∧
    mesh_marker_pub_ s' = mesh_marker_pub_ s ∧
    perch_server_ s' = perch_server_ s ∧
    perch_result_ s' = perch_result_ s.
Proof.
  intros Hviz Hids Hcam Hloc Hwf. unfold CloudCBInternal. rewrite Hcam.
  destruct (make_request_recent_cloud s original_cloud transform
              (table_removed (params s) original_cloud)) as [Hreq Hpar].
  rewrite Hpar, Hreq, Hloc.
  rewrite decide_False by (destruct Hwf as (_ & _ & ?); lia).
  set (req := make_request s transform _).
  assert (object_ids req = latest_requested_objects_ s) as -> by done.
  set (s2 := set_latest_object_poses_ _ _).
  assert (params s2 = params s ∧
          latest_object_poses_ s2
          = replicate (length (latest_requested_objects_ s)) default_Pose ∧
          latest_call_success_ s2 = true ∧
          pose_pub_ s2 = pose_pub_ s ∧
          mesh_marker_pub_ s2 = mesh_marker_pub_ s ∧
          perch_server_ s2 = perch_server_ s ∧
          perch_result_ s2 = perch_result_ s)
    as (Hp2 & Hl2 & Hc2 & Hpp2 & Hm2 & Hg2 & Hr2)
    by (subst s2; destruct s; done).
  clearbody s2.
  destruct (latest_requested_objects_ s) as [|model_name rest] eqn:Hobj;
    [done|].
  destruct (localize_object_without_viewer w resp 0 model_name s2)
    as (s3 & Hstep & Hl3 & Hpp3 & Hm3 & Hsame).
  { by rewrite Hp2. }
  { apply (well_formed_payloads (length (model_name :: rest))); [done|].
    cbn. lia. }
  exists s3. cbn [localize_objects]. rewrite Hstep.
  destruct Hsame as (_ & _ & _ & _ & _ & _ & _ & Hc3 & Hr3 & Hg3 & _).
  split_and!; congruence.
Qed.

End Response.

(** * The properties on the bench *)


(** C6 (as stated, refuted).  A goal for two objects succeeds with two
    poses and two markers are sent, but one pose only is published. *)
Lemma two_objects_one_pose_published :
  let s := process_state (spin two_objects (bench_node true false)) in
  spin two_objects (bench_node true false) = Running s ∧
  length (latest_requested_objects_ s) = 2%nat ∧
  (∃ p0 p1, perch_server_ s = Succeeded [p0; p1]) ∧
  length (mesh_marker_pub_ s) = 2%nat ∧
  length (pose_pub_ s) = 1%nat ∧
  length (pose_pub_ s) ≠ length (latest_requested_objects_ s).
Proof.
  vm_compute. split_and!; [reflexivity | reflexivity | by eexists _, _
                          | reflexivity | reflexivity | discriminate].
Qed.

(** C7 (as stated, refuted).  The frame of a finished capture is still
    buffered; a goal accepted next does not clear it; the frame that
    follows completes the second capture, whose integration runs over
    both. *)
Lemma frames_survive_into_next_capture :
  let s1 := process_state (spin first_capture (bench_node true false)) in
  let s2 := process_state (spin second_capture s1) in
  spin first_capture (bench_node true false) = Running s1 ∧
  capture_kinect_ s1 = false ∧
  latest_call_success_ s1 = true ∧
  recent_observations_ s1 = [pixel NaN 1] ∧
  recent_observations_ (PERCHGoalCB ["bowl"] s1).1 = [pixel NaN 1] ∧
  spin second_capture s1 = Running s2 ∧
  recent_observations_ s2 = [pixel NaN 1; pixel NaN 2] ∧
  capture_kinect_ s2 = false ∧
  length (object_localization_client_ s2) = 2%nat.
Proof. vm_compute. repeat split. Qed.

(** C8 (the code departs from it).  Whatever the state of a node
    constructed without a viewer, a successful call for a non-empty request,
    answered by a well-formed response, ends in the first round of the
    result loop at the call through [viewer_], which was never assigned:
    the poses stored are the default ones the list was resized with, none is
    made from a payload, nothing is published and the goal is left as it
    was.  On the bench, with every parameter at its default: a goal for one
    object is accepted and the frame completes the capture; the service
    answers, and the callback ends there with the goal still active. *)
Theorem successful_answer_without_viewer :
  (∀ (C : Collaborators) (w : World) original_cloud (s : State)
     transform resp,
     pcl_visualization_ (params s) = false →
     latest_requested_objects_ s ≠ [] →
     camera_lookup w = Some transform →
     localizer w (make_request s transform
                    (table_removed (params s) original_cloud)) = Some resp →
     well_formed_response (length (latest_requested_objects_ s)) resp →
     ∃ s', CloudCBInternal w original_cloud s = Undefined s' ∧
       latest_call_success_ s' = true ∧
       latest_object_poses_ s'
       = replicate (length (latest_requested_objects_ s)) default_Pose ∧
       pose_pub_ s' = pose_pub_ s ∧
       mesh_marker_pub_ s' = mesh_marker_pub_ s ∧
       perch_server_ s' = perch_server_ s ∧
       perch_result_ s' = perch_result_ s) ∧
  let events := [ PerchGoal ["mug"];
                  InputCloud world_ok (message 1 (pixel NaN 1)) ] in
  ∃ s, spin events (@default_PerceptionInterface bench ∅)
       = UndefinedBehaviour s ∧
       pcl_visualization_ (params s) = false ∧
       length (object_localization_client_ s) = 1%nat ∧
       latest_call_success_ s = true ∧
       latest_object_poses_ s = [@default_Pose bench] ∧
       pose_pub_ s = [] ∧
       mesh_marker_pub_ s = [] ∧
       perch_server_ s = Active ∧
       perch_result_ s = [] ∧
       capture_kinect_ s = true.
Proof.
  split; [|eexists; vm_compute; repeat split].
  intros C w original_cloud s transform resp Hviz Hids Hcam Hloc Hwf.
  by apply (CloudCBInternal_without_viewer w original_cloud s transform resp).
Qed.

Lemma markers_for_all_pose_for_first_witness :
  camera_lookup world_counting = Some tt ∧
  localizer world_counting
    (make_request goal_pending tt
       (table_removed (params goal_pending) (pixel NaN 1)))
  = Some two_payloads ∧
  well_formed_response (length (latest_requested_objects_ goal_pending))
    two_payloads ∧
  pcl_visualization_ (params goal_pending) = true ∧
  ∃ s', CloudCBInternal world_counting (pixel NaN 1) goal_pending
        = Returned s' ∧
    length (latest_object_poses_ s') = 2%nat ∧
    perch_server_ s' = Succeeded (latest_object_poses_ s') ∧
    perch_result_ s' = latest_object_poses_ s' ∧
    length (pose_pub_ s') = 1%nat ∧
    length (mesh_marker_pub_ s') = 2%nat ∧
    marker_pose <$> mesh_marker_pub_ s' = latest_object_poses_ s' ∧
    marker_id <$> mesh_marker_pub_ s' = [0; 1]%nat.
Proof.
  assert (well_formed_response
            (length (latest_requested_objects_ goal_pending)) two_payloads)
    as Hwf.
  { split_and!; [cbn; lia | repeat constructor; cbn; lia | cbn; lia]. }
  split_and!; [reflexivity | reflexivity | exact Hwf | reflexivity |].
  destruct (@markers_for_all_pose_for_first bench world_counting
              (pixel NaN 1) goal_pending tt two_payloads
              eq_refl eq_refl Hwf eq_refl)
    as (s' & Hrun & Hlen & Hposes & Hgoal & _ & Hpub & Hmlen & Hmpose & Hmid).
  destruct (Hgoal eq_refl) as [Hserver Hresult].
  exists s'. split_and!; try done.
  by rewrite Hpub, Hposes.
Defined.

Lemma direct_request_starts_from_empty_buffer_witness :
  let events := [ InputCloud world_ok (message 1 (pixel NaN 1));
                  InputCloud world_ok (message 2 (pixel NaN 2)) ] in
  let s1 := RequestedObjectsCB "mug" 0 (bench_node true false) in
  Forall is_input_cloud events ∧
  recent_observations_ s1 = [] ∧
  (∀ w sensor_cloud (s' : @State bench),
     recent_observations_ s'
     `prefix_of` recent_observations_ (final_state (CloudCB w sensor_cloud s'))) ∧
  Forall (λ c, ∃ w sensor_cloud,
                 InputCloud w sensor_cloud ∈ events ∧
                 c = pcl_cloud_of w sensor_cloud s1)
         (recent_observations_ (process_state (spin events s1))).
Proof.
  intros events s1.
  assert (Forall is_input_cloud events) as Hall by (repeat constructor).
  split; [exact Hall|].
  exact (@direct_request_starts_from_empty_buffer bench "mug" 0
           (bench_node true false) events Hall).
Defined.

Lemma dispatch_results_witness :
  let s := goal_pending in
  let cloud := pixel NaN 1 in
  (∃ s', CloudCBInternal world_counting cloud s = Returned s' ∧
     length (latest_object_poses_ s') = 2%nat ∧
     Forall2 (λ pose data,
                ∃ eigen_pose,
                  Matrix4d_of_data data = Some eigen_pose ∧
                  row_major data = Some (transpose eigen_pose) ∧
                  pose = transpose eigen_pose)
             (latest_object_poses_ s') [counting16; counting16] ∧
     (isActive s = true →
      perch_server_ s' = Succeeded (latest_object_poses_ s'))) ∧
  (∃ s', CloudCBInternal world_service_down cloud s = Returned s' ∧
     latest_object_poses_ s' = [] ∧
     latest_call_success_ s' = false ∧
     pose_pub_ s' = pose_pub_ s ∧
     mesh_marker_pub_ s' = mesh_marker_pub_ s ∧
     (isActive s = true →
      perch_server_ s' = Aborted [] ∧ perch_result_ s' = [])).
Proof.
  intros s cloud. split.
  - refine (@dispatch_results bench world_counting cloud s tt
              (Some two_payloads) eq_refl eq_refl _).
    intros resp [= <-]. split; [|reflexivity].
    split_and!; [cbn; lia | repeat constructor; cbn; lia | cbn; lia].
  - refine (@dispatch_results bench world_service_down cloud s tt
              None eq_refl eq_refl _).
    intros resp [=].
Defined.

Lemma empty_goal_is_aborted_witness :
  let s := bench_node true false in
  let events := [ InputCloud world_ok (message 1 (pixel NaN 1)) ] in
  let s' := (PERCHGoalCB [] s).1 in
  capture_kinect_ s = false ∧
  Forall is_input_cloud events ∧
  (PERCHGoalCB [] s).2 = false ∧
  perch_server_ s' = Aborted [] ∧
  perch_result_ s' = [] ∧
  capture_kinect_ s' = false ∧
  recent_observations_ s' = recent_observations_ s ∧
  spin events s' = Running s'.
Proof.
  intros s events s'.
  assert (Forall is_input_cloud events) as Hall by (repeat constructor).
  split_and!; [reflexivity | exact Hall | ..];
    apply (@empty_goal_is_aborted bench s events eq_refl Hall).
Defined.

Lemma staleness_gate_witness :
  let s := RequestedObjectsCB "mug" 10 (bench_node true true) in
  let frame := pixel NaN 1 in
  wait_for_recent_ (params s) = true ∧
  capture_kinect_ s = true ∧
  cmd_rec_time_ s = 10 ∧
  CloudCB world_ok (message 9 frame) s
  = Returned (ros_log WARN_cloud_too_old s) ∧
  recent_observations_ (ros_log WARN_cloud_too_old s) = [] ∧
  recent_observations_
    (final_state (CloudCB world_ok (message 11 frame)
                    (ros_log WARN_cloud_too_old s)))
  = [frame].
Proof.
  intros s frame.
  destruct (@staleness_gate bench world_ok (message 9 frame) s
              eq_refl eq_refl) as (Hrec & Hstale & _).
  destruct (Hstale ltac:(cbn; lia)) as (Hrej & Hbuf & Harmed & HT).
  destruct (@staleness_gate bench world_ok (message 11 frame)
              (ros_log WARN_cloud_too_old s) eq_refl Harmed)
    as (_ & _ & _ & Hnext).
  split_and!; [reflexivity | reflexivity | reflexivity
              | exact Hrej | exact Hbuf | exact (Hnext eq_refl)].
Defined.

(** * Further properties of the integrator *)

Lemma collect_range_vals_is_Some (point_clouds : list PointCloud) (ii : nat) :
  is_Some (collect_range_vals point_clouds ii)
  ↔ Forall (λ c, (ii < length (points c))%nat) point_clouds.
Proof.
  induction point_clouds as [|c rest IH]; cbn [collect_range_vals].
  - split; [constructor | by eexists].
  - rewrite Forall_cons, <- IH, <- lookup_lt_is_Some. split.
    + intros [vals H]. destruct (points c !! ii); [|done].
      cbn in H. destruct (collect_range_vals rest ii); [|done]. by split.
    + intros [[pt ->] [vals ->]]. by eexists.
Qed.

(** Every value collected for a pixel is the finite depth of that pixel in
    one of the clouds. *)
Lemma collect_range_vals_observed (point_clouds : list PointCloud) (ii : nat) :
  ∀ vals, collect_range_vals point_clouds ii = Some vals →
  ∀ v, v ∈ vals →
  ∃ c pt, c ∈ point_clouds ∧ points c !! ii = Some pt ∧ p_z pt = Finite v.
Proof.
  induction point_clouds as [|c rest IH]; cbn [collect_range_vals];
    intros vals H v Hv.
  - simplify_eq. by apply elem_of_nil in Hv.
  - destruct (points c !! ii) as [pt|] eqn:Hpt; [|done]. cbn in H.
    destruct (collect_range_vals rest ii) as [vals'|]; [|done].
    cbn in H. simplify_eq.
    assert (v ∈ vals' → ∃ c0 pt0, c0 ∈ c :: rest ∧ points c0 !! ii = Some pt0
                                  ∧ p_z pt0 = Finite v) as Hrest.
    { intros Hin. destruct (IH vals' eq_refl v Hin) as (c0 & pt0 & ? & ? & ?).
      exists c0, pt0. split_and!; [by right|done..]. }
    unfold no_return in Hv. destruct (p_z pt) as [r| |] eqn:Hz; cbn in Hv;
      [|by apply Hrest..].
    apply elem_of_cons in Hv as [->|Hv]; [|by apply Hrest].
    exists c, pt. split_and!; [by left|done..].
Qed.

Lemma select_median_elem_of (l : list Z) (v : Z) :
  select_median l = Some v → v ∈ l.
Proof.
  unfold select_median, nth_element. intros H.
  apply list_elem_of_lookup_2 in H. case_decide; [|done].
  by rewrite sort_asc_Permutation in H.
Qed.

(** What the loop body yields for one pixel. *)
Lemma integrate_point_Some (first : PointCloud) rest (ii : nat) (p : PointT) :
  integrate_point (first :: rest) ii = Some p ↔
  ∃ vals q,
    collect_range_vals (first :: rest) ii = Some vals ∧
    points first !! ii = Some q ∧
    (vals = [] ∧ p = q ∨
     ∃ m, select_median vals = Some m ∧ vals ≠ [] ∧ p = set_z q (Finite m)).
Proof.
  unfold integrate_point. cbn [head mbind option_bind]. split.
  - intros H.
    destruct (collect_range_vals (first :: rest) ii) as [vals|]; [|done].
    cbn in H. destruct (points first !! ii) as [q|]; [|done]. cbn in H.
    exists vals, q. split_and!; [done..|].
    destruct vals as [|v vals]; [left; by simplify_eq|right].
    destruct (select_median (v :: vals)) as [m|]; [|done].
    cbn in H. simplify_eq. by exists m.
  - intros (vals & q & -> & -> & [[-> ->]|(m & Hm & Hne & ->)]); [done|].
    cbn. destruct vals; [done|]. by rewrite Hm.
Qed.

(** X1.  Whatever cloud the integrator returns for a non-empty buffer has
    the first frame's width, height, density flag and number of points, and
    each of its points has the first frame's x, y and colour at that
    index. *)
Theorem integrated_cloud_keeps_first_frame
    (first : PointCloud) (rest : list PointCloud) (out : PointCloud) :
  IntegrateOrganizedClouds (first :: rest) = Some out →
  width out = width first ∧
  height out = height first ∧
  is_dense out = is_dense first ∧
  length (points out) = length (points first) ∧
  ∀ ii p q, points out !! ii = Some p → points first !! ii = Some q →
            p_x p = p_x q ∧ p_y p = p_y q ∧
            p_r p = p_r q ∧ p_g p = p_g q ∧ p_b p = p_b q.
Proof.
  unfold IntegrateOrganizedClouds. intros H.
  destruct (mapM _ _) as [pts|] eqn:Hpts; [|done]. cbn in H. simplify_eq.
  apply mapM_Some_1 in Hpts. cbn [width height is_dense points].
  split_and!; try done.
  - apply Forall2_length in Hpts. by rewrite length_seq in Hpts.
  - intros ii p q Hp Hq.
    destruct (Forall2_lookup_r _ _ _ _ _ Hpts Hp) as (jj & Hjj & Hint).
    apply lookup_seq in Hjj as [-> _]. cbn in Hint.
    apply integrate_point_Some in Hint
      as (vals & q' & _ & Hq' & [[_ ->]|(m & _ & _ & ->)]);
      rewrite Hq in Hq'; by simplify_eq.
Qed.

(** X2.  When no cloud has a return at any pixel of the first frame, the
    integrator returns a new cloud that holds the first frame's points as
    they are, with its width, height and density flag; the header and the
    sensor pose of the result are those of a newly constructed cloud, not
    the first frame's. *)
Theorem no_returns_copy_first_frame
    (first : PointCloud) (rest : list PointCloud) :
  Forall (λ c, (length (points first) ≤ length (points c))%nat ∧
               ∀ ii pt, (ii < length (points first))%nat →
                        points c !! ii = Some pt → no_return pt = true)
         (first :: rest) →
  ∃ out, IntegrateOrganizedClouds (first :: rest) = Some out ∧
    points out = points first ∧
    width out = width first ∧
    height out = height first ∧
    is_dense out = is_dense first ∧
    header out = header new_PointCloud ∧
    sensor_origin_ out = sensor_origin_ new_PointCloud ∧
    sensor_orientation_ out = sensor_orientation_ new_PointCloud.
Proof.
  intros Hall. unfold IntegrateOrganizedClouds.
  assert (∀ ii, (ii < length (points first))%nat →
                collect_range_vals (first :: rest) ii = Some []) as Hnone.
  { intros ii Hii. revert Hall. generalize (first :: rest).
    induction 1 as [|c l [Hlen Hno] _ IH]; [done|].
    cbn [collect_range_vals].
    destruct (lookup_lt_is_Some_2 (points c) ii) as [pt Hpt]; [lia|].
    rewrite Hpt, IH. cbn. by rewrite (Hno ii pt Hii Hpt). }
  rewrite (mapM_Some_2 _ _ (points first)); [by eexists|].
  apply Forall2_same_length_lookup_2; [by rewrite length_seq|].
  intros ii jj q Hjj Hq. apply lookup_seq in Hjj as [-> Hii]. cbn.
  apply integrate_point_Some. exists [], q. split_and!; [by apply Hnone|done|].
  by left.
Qed.

(** Two conditions under which the integrator stays inside its vectors. *)
Lemma IntegrateOrganizedClouds_defined
    (first : PointCloud) (rest : list PointCloud) :
  Forall (λ c, (length (points first) ≤ length (points c))%nat) rest →
  (∀ ii vals, (ii < length (points first))%nat →
              collect_range_vals (first :: rest) ii = Some vals →
              length vals ≠ 1%nat) →
  is_Some (IntegrateOrganizedClouds (first :: rest)).
Proof.
  intros Hlen Hvals. unfold IntegrateOrganizedClouds.
  set (n := length (points first)).
  assert (is_Some (mapM (integrate_point (first :: rest)) (seq 0 n))) as [pts ->];
    [|by eexists].
  rewrite mapM_is_Some, Forall_seq. cbn. intros ii [_ Hii].
  assert (is_Some (collect_range_vals (first :: rest) ii)) as [vals Hc].
  { apply collect_range_vals_is_Some, Forall_cons. split; [done|].
    eapply Forall_impl; [exact Hlen|]. cbn. intros; lia. }
  destruct (lookup_lt_is_Some_2 (points first) ii Hii) as [q Hq].
  destruct vals as [|v vals].
  + exists q. apply integrate_point_Some. exists [], q. by split_and!; [..|left].
  + assert (is_Some (select_median (v :: vals))) as [m Hm].
    { apply select_median_is_Some. specialize (Hvals ii _ Hii Hc).
      cbn in *. lia. }
    exists (set_z q (Finite m)). apply integrate_point_Some.
    exists (v :: vals), q. split_and!; [done..|]. right. by exists m.
Qed.

(** X3.  For a non-empty buffer the integrator has a defined result exactly
    when every later cloud has at least as many points as the first and no
    pixel of the first frame has exactly one finite depth among the
    clouds. *)
Theorem integration_defined_iff (first : PointCloud) (rest : list PointCloud) :
  is_Some (IntegrateOrganizedClouds (first :: rest)) ↔
  Forall (λ c, (length (points first) ≤ length (points c))%nat) rest ∧
  ∀ ii vals, (ii < length (points first))%nat →
             collect_range_vals (first :: rest) ii = Some vals →
             length vals ≠ 1%nat.
Proof.
  split; [|intros [Hlen Hvals]; by apply IntegrateOrganizedClouds_defined].
  unfold IntegrateOrganizedClouds.
  set (n := length (points first)).
  intros Hsome.
  assert (∀ ii, (ii < n)%nat → is_Some (integrate_point (first :: rest) ii))
    as Hm.
  { assert (is_Some (mapM (integrate_point (first :: rest)) (seq 0 n))) as Hs
      by (destruct (mapM _ _); [by eexists | by destruct Hsome]).
    rewrite mapM_is_Some, Forall_seq in Hs. intros ii Hii. apply Hs. lia. }
  split.
  - destruct n as [|n'] eqn:Hn; [apply Forall_forall; intros; lia|].
    destruct (Hm n') as [p Hp]; [lia|].
    apply integrate_point_Some in Hp as (vals & q & Hc & _).
    assert (is_Some (collect_range_vals (first :: rest) n')) as Hs by done.
    apply collect_range_vals_is_Some, Forall_cons in Hs as [_ Hs].
    eapply Forall_impl; [exact Hs|]. cbn. intros; lia.
  - intros ii vals Hii Hc Hone. destruct (Hm ii Hii) as [p Hp].
    apply integrate_point_Some
      in Hp as (vals' & q & Hc' & _ & [[-> _]|(m & Hm' & _ & _)]);
      rewrite Hc in Hc'; simplify_eq; try done.
    assert (is_Some (select_median vals')) as Hs by done.
    apply select_median_is_Some in Hs. lia.
Qed.

(** X4.  Provided every later cloud has at least as many points as the
    first and no pixel of the first frame has exactly one finite depth among
    the clouds (the conditions under which the integrator stays inside its
    vectors), the integrator returns a cloud in which every point of the
    first frame has its counterpart, and the depth of that counterpart is
    either the first frame's own depth at that pixel (when no cloud has a
    return there, and then the whole point is the first frame's) or a finite
    depth that one of the clouds has at that pixel. *)
Theorem integrated_depth_is_observed
    (first : PointCloud) (rest : list PointCloud) :
  Forall (λ c, (length (points first) ≤ length (points c))%nat) rest →
  (∀ ii vals, (ii < length (points first))%nat →
              collect_range_vals (first :: rest) ii = Some vals →
              length vals ≠ 1%nat) →
  ∃ out, IntegrateOrganizedClouds (first :: rest) = Some out ∧
    ∀ ii q, points first !! ii = Some q →
      ∃ p, points out !! ii = Some p ∧
        ((p = q ∧ collect_range_vals (first :: rest) ii = Some []) ∨
         ∃ c pt, c ∈ first :: rest ∧ points c !! ii = Some pt ∧
                 isfinite (p_z pt) = true ∧ p_z p = p_z pt).
Proof.
  intros Hlen Hvals.
  destruct (IntegrateOrganizedClouds_defined first rest Hlen Hvals)
    as [out Hout].
  exists out. split; [done|]. intros ii q Hq.
  unfold IntegrateOrganizedClouds in Hout.
  destruct (mapM _ _) as [pts|] eqn:Hpts; [|done]. cbn in Hout. simplify_eq.
  apply mapM_Some_1 in Hpts. cbn [points].
  assert (seq 0 (length (points first)) !! ii = Some ii) as Hii
    by (apply lookup_seq; split; [done | by eapply lookup_lt_Some]).
  destruct (Forall2_lookup_l _ _ _ _ _ Hpts Hii) as (p & Hp & Hint).
  exists p. split; [done|].
  apply integrate_point_Some in Hint
    as (vals & q' & Hc & Hq' & [[-> ->]|(m & Hm & _ & ->)]);
    rewrite Hq in Hq'; simplify_eq; [by left|right].
  apply select_median_elem_of in Hm.
  destruct (collect_range_vals_observed _ _ _ Hc m Hm) as (c & pt & ? & ? & Hz).
  exists c, pt. split_and!; [done..| |]; by rewrite Hz.
Qed.

(** X5.  With two or three finite depths at a pixel the value selected is
    the largest of them. *)
Theorem two_or_three_values_give_maximum (l : list Z) :
  (length l = 2 ∨ length l = 3)%nat →
  ∃ v, select_median l = Some v ∧ v ∈ l ∧ Forall (λ x, x <= v) l.
Proof.
  intros Hlen. rewrite select_median_sorted by lia.
  destruct l as [|a [|b [|c [|d l]]]]; cbn [length] in *; try lia.
  - change (Z.to_nat ((Z.of_nat 2 + 1) / 2)) with 1%nat.
    unfold sort_asc. cbn [foldr insert_asc].
    destruct (Z.leb_spec a b); eexists; (split; [reflexivity|]);
      (split; [repeat first [by left | right]|]); repeat constructor; lia.
  - change (Z.to_nat ((Z.of_nat 3 + 1) / 2)) with 2%nat.
    unfold sort_asc. cbn [foldr insert_asc].
    destruct (Z.leb_spec b c); cbn [insert_asc];
      repeat (match goal with
              | |- context [?x <=? ?y] => destruct (Z.leb_spec x y)
              end; cbn [insert_asc]);
      eexists; (split; [reflexivity|]);
      (split; [repeat first [by left | right]|]); repeat constructor; lia.
Qed.

Lemma two_or_three_values_give_maximum_witness :
  (length [5; 9; 1] = 2 ∨ length [5; 9; 1] = 3)%nat ∧
  ∃ v, select_median [5; 9; 1] = Some v ∧ v ∈ [5; 9; 1]
       ∧ Forall (λ x, x <= v) [5; 9; 1].
Proof.
  split; [by right|].
  exact (two_or_three_values_give_maximum [5; 9; 1] (or_intror eq_refl)).
Defined.

(** * Further properties of the callbacks *)

Section Callbacks.
Context {C : Collaborators}.

Lemma make_request_ext (s s' : State) transform c :
  params s' = params s →
  latest_requested_objects_ s' = latest_requested_objects_ s →
  make_request s' transform c = make_request s transform c.
Proof. unfold make_request. by intros -> ->. Qed.

(** [CloudCBInternal] sends one request when the camera transform resolves
    and none when it does not. *)
Lemma CloudCBInternal_requests w original_cloud (s : State) :
  object_localization_client_ (final_state (CloudCBInternal w original_cloud s))
  = object_localization_client_ s
    ++ match camera_lookup w with
       | Some transform =>
           [make_request s transform (table_removed (params s) original_cloud)]
       | None => []
       end.
Proof.
  unfold CloudCBInternal.
  assert (params (set_recent_cloud_ original_cloud s) = params s) as Hpar
    by (by destruct s).
  destruct (camera_lookup w) as [transform|];
    [|destruct s; cbn; by rewrite app_nil_r].
  destruct (make_request_recent_cloud s original_cloud transform
              (table_removed (params s) original_cloud)) as [Hreq _].
  rewrite Hpar, Hreq.
  set (req := make_request s transform _).
  destruct (localizer w req) as [resp|].
  - case_decide; [by destruct s|].
    set (s2 := set_latest_object_poses_ (replicate _ _) _).
    assert (object_localization_client_ s2
            = object_localization_client_ s ++ [req]) as H2
      by (subst s2; by destruct s).
    pose proof (localize_objects_same w resp (object_ids req) 0%nat s2) as Hs.
    clearbody s2.
    destruct (localize_objects w resp 0 (object_ids req) s2) as [s3|s3|s3];
      cbn [final_state] in *;
      destruct Hs as (_ & _ & _ & _ & _ & _ & Hc & _);
      try (destruct (isActive s3)); destruct s3; cbn in *; congruence.
  - destruct s; cbn. by case_match.
Qed.

Lemma CloudCB_requests w sensor_cloud (s : State) :
  let s' := final_state (CloudCB w sensor_cloud s) in
  object_localization_client_ s' = object_localization_client_ s ∨
  (accepts sensor_cloud s = true ∧
   still_collecting (pushed w sensor_cloud s) = false ∧
   ∃ transform,
     camera_lookup w = Some transform ∧
     object_localization_client_ s'
     = object_localization_client_ s
       ++ [make_request s transform
             (table_removed (params s) (pcl_cloud_of w sensor_cloud s))]).
Proof.
  cbv zeta. rewrite CloudCB_unfold. unfold accepts.
  destruct (capture_kinect_ s); cbn [negb andb]; [|by left].
  destruct (wait_for_recent_ (params s) && _); cbn [negb];
    [left; by destruct s|].
  pose proof (pushed_fields w sensor_cloud s) as F. cbv zeta in F.
  destruct F as (_ & Fp & _ & _ & Fr & Fc & _).
  set (s2 := pushed w sensor_cloud s) in *. clearbody s2.
  destruct (still_collecting s2) eqn:Hfull; [by left|].
  destruct (IntegrateOrganizedClouds _); [|by left].
  pose proof (CloudCBInternal_requests w (pcl_cloud_of w sensor_cloud s) s2)
    as R.
  assert (object_localization_client_
            (final_state
               match CloudCBInternal w (pcl_cloud_of w sensor_cloud s) s2 with
               | Returned s3 => Returned (set_capture_kinect_ false s3)
               | o => o
               end)
          = object_localization_client_
              (final_state (CloudCBInternal w (pcl_cloud_of w sensor_cloud s) s2)))
    as -> by (destruct (CloudCBInternal _ _ _) as [[]| |]; done).
  rewrite R, Fc. destruct (camera_lookup w) as [transform|];
    [right|left; by rewrite app_nil_r].
  split_and!; [done..|]. exists transform. split; [done|].
  by rewrite Fp, (make_request_ext s s2).
Qed.



(** [CloudCBInternal] resolves a goal only if one is active. *)
Lemma CloudCBInternal_goal_untouched w original_cloud (s : State) :
  isActive s = false →
  perch_server_ (final_state (CloudCBInternal w original_cloud s))
  = perch_server_ s ∧
  perch_result_ (final_state (CloudCBInternal w original_cloud s))
  = perch_result_ s.
Proof.
  intros Hidle. unfold CloudCBInternal.
  destruct (camera_lookup w) as [transform|]; [|by destruct s].
  set (req := make_request _ transform _).
  destruct (localizer w req) as [resp|].
  - case_decide; [by destruct s|].
    set (s2 := set_latest_object_poses_ (replicate _ _) _).
    assert (perch_server_ s2 = perch_server_ s
            ∧ perch_result_ s2 = perch_result_ s) as [Hg2 Hr2]
      by (subst s2; by destruct s).
    pose proof (localize_objects_same w resp (object_ids req) 0%nat s2) as Hs.
    clearbody s2.
    destruct (localize_objects w resp 0 (object_ids req) s2) as [s3|s3|s3];
      cbn [final_state] in *;
      destruct Hs as (_ & _ & _ & _ & _ & _ & _ & _ & Hr & Hg & _);
      [|split; congruence..].
    assert (isActive s3 = false) as ->
      by (unfold isActive in *; by rewrite Hg, Hg2).
    split; congruence.
  - assert (isActive
              (ros_log ERROR_localizer_service_failed
                 (set_latest_call_success_ (bool_decide (is_Some None))
                    (sent_request req
                       (set_latest_object_poses_ []
                          (set_recent_cloud_ original_cloud s)))))
            = false) as -> by (by destruct s).
    by destruct s.
Qed.

(** X7.  A capture that no goal is waiting for (one started by topic or by
    key, or running after the goal was resolved) never changes the state of
    the action server nor its stored result, whatever the service
    answers. *)
Theorem capture_without_goal_leaves_server w sensor_cloud (s : State) :
  isActive s = false →
  perch_server_ (final_state (CloudCB w sensor_cloud s)) = perch_server_ s ∧
  perch_result_ (final_state (CloudCB w sensor_cloud s)) = perch_result_ s.
Proof.
  intros Hidle. rewrite CloudCB_unfold.
  destruct (capture_kinect_ s); cbn [negb]; [|done].
  destruct (wait_for_recent_ (params s) && _); [by destruct s|].
  pose proof (pushed_fields w sensor_cloud s) as F. cbv zeta in F.
  destruct F as (_ & _ & _ & _ & _ & _ & Fg & Fr & _).
  set (s2 := pushed w sensor_cloud s) in *. clearbody s2.
  destruct (still_collecting s2); [done|].
  destruct (IntegrateOrganizedClouds _); [|done].
  destruct (CloudCBInternal_goal_untouched w (pcl_cloud_of w sensor_cloud s) s2)
    as [Kg Kr]; [unfold isActive in *; by rewrite Fg|].
  destruct (CloudCBInternal w (pcl_cloud_of w sensor_cloud s) s2) as [s3|s3|s3];
    cbn [final_state] in *; [destruct s3; cbn in *|..]; split; congruence.
Qed.

(** How [CloudCBInternal] leaves the action server when it returns. *)
Lemma CloudCBInternal_goal w original_cloud (s s3 : State) :
  CloudCBInternal w original_cloud s = Returned s3 →
  perch_server_ s3
  = if isActive s
    then if latest_call_success_ s3
         then Succeeded (latest_object_poses_ s3)
         else Aborted []
    else perch_server_ s.
Proof.
  unfold CloudCBInternal.
  destruct (camera_lookup w) as [transform|]; [|done].
  set (req := make_request _ transform _).
  destruct (localizer w req) as [resp|].
  - case_decide; [done|].
    set (s2 := set_latest_object_poses_ (replicate _ _) _).
    assert (perch_server_ s2 = perch_server_ s
            ∧ latest_call_success_ s2 = true) as [Hg2 Hc2]
      by (subst s2; by destruct s).
    pose proof (localize_objects_same w resp (object_ids req) 0%nat s2) as Hs.
    clearbody s2.
    destruct (localize_objects w resp 0 (object_ids req) s2) as [s4|s4|s4];
      cbn [final_state] in *; [|done..].
    destruct Hs as (_ & _ & _ & _ & _ & _ & _ & Hc & _ & Hg & _).
    assert (isActive s4 = isActive s) as ->
      by (unfold isActive; by rewrite Hg, Hg2).
    intros [= <-]. destruct (isActive s) eqn:Ha.
    + destruct s4; cbn in *. by rewrite Hc, Hc2.
    + congruence.
  - set (s2 := ros_log _ _).
    assert (isActive s2 = isActive s ∧ perch_server_ s2 = perch_server_ s
            ∧ latest_call_success_ s2 = false) as (-> & Hg & Hc)
      by (subst s2; by destruct s).
    clearbody s2. intros [= <-].
    destruct (isActive s); [|done].
    destruct s2; cbn in *. by rewrite Hc.
Qed.

(** X8.  When the callback returns from a cloud that passed the gate and
    filled the buffer, the gate is disarmed and no goal is left active: a
    goal that was active has succeeded with the poses just computed if the
    service call succeeded and is aborted with an empty result if it
    failed.  Every cloud that follows is dropped without a change. *)
Theorem completed_capture_disarms_and_resolves
    w sensor_cloud (s s' : State) (events : list Event) :
  CloudCB w sensor_cloud s = Returned s' →
  accepts sensor_cloud s = true →
  still_collecting (pushed w sensor_cloud s) = false →
  Forall is_input_cloud events →
  capture_kinect_ s' = false ∧
  perch_server_ s'
  = (if isActive s
     then if latest_call_success_ s'
          then Succeeded (latest_object_poses_ s')
          else Aborted []
     else perch_server_ s) ∧
  isActive s' = false ∧
  spin events s' = Running s'.
Proof.
  rewrite CloudCB_unfold. unfold accepts. intros Hrun Hacc Hfull Hall.
  destruct (capture_kinect_ s); [|done]. cbn [negb andb] in *.
  destruct (wait_for_recent_ (params s) && _); [done|].
  cbv zeta in Hrun. rewrite Hfull in Hrun.
  pose proof (pushed_fields w sensor_cloud s) as F. cbv zeta in F.
  destruct F as (_ & _ & _ & _ & _ & _ & Fg & _).
  set (s2 := pushed w sensor_cloud s) in *. clearbody s2.
  destruct (IntegrateOrganizedClouds _); [|done].
  destruct (CloudCBInternal w (pcl_cloud_of w sensor_cloud s) s2)
    as [s3| |] eqn:Hint; [|done..].
  apply CloudCBInternal_goal in Hint. simplify_eq.
  assert (isActive s2 = isActive s) as Ha
    by (unfold isActive; by rewrite Fg).
  rewrite Ha, Fg in Hint.
  assert (capture_kinect_ (set_capture_kinect_ false s3) = false) as Hoff
    by (by destruct s3).
  assert (perch_server_ (set_capture_kinect_ false s3) = perch_server_ s3
          ∧ latest_call_success_ (set_capture_kinect_ false s3)
            = latest_call_success_ s3
          ∧ latest_object_poses_ (set_capture_kinect_ false s3)
            = latest_object_poses_ s3) as (Hg & -> & ->)
    by (by destruct s3).
  split_and!; [done| by rewrite Hg, Hint | | by apply spin_clouds_disarmed].
  unfold isActive at 1. rewrite Hg, Hint. unfold isActive.
  destruct (perch_server_ s); try done; by destruct (latest_call_success_ s3).
Qed.

(** X9.  While the gate is armed with staleness gating on, clouds stamped
    before the issue timestamp leave everything as it is except the log,
    which receives one warning per cloud. *)
Theorem stale_clouds_only_warn (events : list Event) : ∀ s : State,
  wait_for_recent_ (params s) = true →
  capture_kinect_ s = true →
  Forall (is_stale_cloud (cmd_rec_time_ s)) events →
  ∃ s', spin events s = Running s' ∧
    rosout s' = rosout s ++ replicate (length events) WARN_cloud_too_old ∧
    recent_observations_ s' = recent_observations_ s ∧
    capture_kinect_ s' = true ∧
    cmd_rec_time_ s' = cmd_rec_time_ s ∧
    object_localization_client_ s' = object_localization_client_ s ∧
    perch_server_ s' = perch_server_ s.
Proof.
  induction events as [|e rest IH]; intros s Hgate Harmed Hall.
  - exists s. cbn. by rewrite app_nil_r.
  - apply Forall_cons in Hall as [He Hrest].
    destruct e as [w sensor_cloud| | |]; try done. cbn in He.
    cbn [spin dispatch]. rewrite CloudCB_unfold, Harmed, Hgate.
    rewrite bool_decide_true by done. cbn [negb andb].
    set (s1 := ros_log WARN_cloud_too_old s).
    assert (params s1 = params s ∧ capture_kinect_ s1 = capture_kinect_ s ∧
            cmd_rec_time_ s1 = cmd_rec_time_ s ∧
            rosout s1 = rosout s ++ [WARN_cloud_too_old] ∧
            recent_observations_ s1 = recent_observations_ s ∧
            object_localization_client_ s1 = object_localization_client_ s ∧
            perch_server_ s1 = perch_server_ s)
      as (Hp & Hk & Ht & Hl & Ho & Hc & Hg) by (subst s1; by destruct s).
    clearbody s1.
    destruct (IH s1) as (s' & Hrun & Hl' & Ho' & Hk' & Ht' & Hc' & Hg');
      [congruence..| by rewrite Ht|].
    exists s'. rewrite Hl', Hl, <- app_assoc. cbn [length replicate app].
    split_and!; congruence.
Qed.

End Callbacks.

(** * Further properties of the dispatch loop *)

Section Loop.
Context {C : Collaborators}.

(** Handling one batch of events after another is handling them all in
    order; once an exception or undefined behaviour has ended the process,
    nothing that follows is handled. *)
Lemma spin_app (events1 events2 : list Event) (s : State) :
  spin (events1 ++ events2) s
  = match spin events1 s with
    | Running s' => spin events2 s'
    | p => p
    end.
Proof.
  revert s. induction events1 as [|e rest IH]; intros s; [done|].
  cbn [app spin]. destruct (dispatch e s); [apply IH|done..].
Qed.

Lemma CloudCB_keeps w sensor_cloud (s : State) :
  let s' := final_state (CloudCB w sensor_cloud s) in
  params s' = params s ∧
  cmd_rec_time_ s' = cmd_rec_time_ s ∧
  latest_requested_objects_ s' = latest_requested_objects_ s.
Proof.
  cbv zeta. rewrite CloudCB_unfold.
  destruct (capture_kinect_ s); cbn [negb]; [|done].
  destruct (wait_for_recent_ (params s) && _); [by destruct s|].
  pose proof (pushed_fields w sensor_cloud s) as F. cbv zeta in F.
  destruct F as (_ & Fp & _ & Ft & Fr & _).
  set (s2 := pushed w sensor_cloud s) in *. clearbody s2.
  destruct (still_collecting s2); [done|].
  destruct (IntegrateOrganizedClouds _); [|done].
  pose proof (CloudCBInternal_keeps w (pcl_cloud_of w sensor_cloud s) s2) as K.
  cbv zeta in K.
  destruct (CloudCBInternal w (pcl_cloud_of w sensor_cloud s) s2) as [s3|s3|s3];
    cbn [final_state] in *; destruct K as (Kp & _ & Kt & _ & Kr & _);
    [destruct s3; cbn in *|..]; split_and!; congruence.
Qed.

Lemma dispatch_keeps (e : Event) (s : State) :
  let s' := process_state (dispatch e s) in
  params s' = params s ∧
  (is_not_request e → cmd_rec_time_ s' = cmd_rec_time_ s) ∧
  (is_cloud_or_key e → latest_requested_objects_ s' = latest_requested_objects_ s).
Proof.
  destruct e as [w sensor_cloud|code|object_name now|goal_ids]; cbn [dispatch].
  - pose proof (CloudCB_keeps w sensor_cloud s) as K. cbv zeta in K.
    destruct (CloudCB w sensor_cloud s); cbn in *; by destruct_and!.
  - unfold KeyboardCB. case_decide; by destruct s.
  - unfold RequestedObjectsCB. destruct s as [p ? ? ? ? ? ? ? ? ? ? ? ? ? ?].
    cbn. by destruct (wait_for_recent_ p).
  - unfold PERCHGoalCB. destruct s; cbn. by destruct goal_ids.
Qed.

Lemma spin_params (events : list Event) : ∀ s : State,
  params (process_state (spin events s)) = params s.
Proof.
  induction events as [|e rest IH]; intros s; [done|]. cbn [spin].
  pose proof (dispatch_keeps e s) as K. cbv zeta in K. destruct K as (Kp & _).
  destruct (dispatch e s) as [s1|s1|s1]; cbn [process_state] in *; [|done..].
  by rewrite IH.
Qed.

(** X13.  The issue timestamp is written by requests on the direct channel
    only: goals, keys and clouds leave it as it is, so a capture started by
    a goal or a key is gated by the time of the last direct request (by
    time zero on a node that never had one). *)
Theorem issue_time_changes_only_on_request (events : list Event) :
  ∀ s : State,
  Forall is_not_request events →
  cmd_rec_time_ (process_state (spin events s)) = cmd_rec_time_ s.
Proof.
  induction events as [|e rest IH]; intros s Hall; [done|].
  apply Forall_cons in Hall as [He Hrest]. cbn [spin].
  pose proof (dispatch_keeps e s) as K. cbv zeta in K.
  destruct K as (_ & Kt & _). specialize (Kt He).
  destruct (dispatch e s) as [s1|s1|s1]; cbn [process_state] in *; [|done..].
  by rewrite IH.
Qed.

(** X14.  While only clouds and keys arrive, the identifiers last requested
    stay as they are and every recognition request sent carries exactly
    them, together with the configured bounds and table height: a capture
    started by key asks again for the objects of the last request. *)
Theorem key_captures_reuse_identifiers (events : list Event) : ∀ s : State,
  Forall is_cloud_or_key events →
  let s' := process_state (spin events s) in
  latest_requested_objects_ s' = latest_requested_objects_ s ∧
  ∃ sent,
    object_localization_client_ s' = object_localization_client_ s ++ sent ∧
    Forall (λ req, object_ids req = latest_requested_objects_ s ∧
                   x_min req = xmin_ (params s) ∧
                   x_max req = xmax_ (params s) ∧
                   y_min req = ymin_ (params s) ∧
                   y_max req = ymax_ (params s) ∧
                   support_surface_height req = table_height_ (params s))
           sent.
Proof.
  induction events as [|e rest IH]; intros s Hall; cbv zeta.
  - split; [done|]. exists []. by rewrite app_nil_r.
  - apply Forall_cons in Hall as [He Hrest]. cbn [spin].
    pose proof (dispatch_keeps e s) as K. cbv zeta in K.
    destruct K as (Kp & _ & Kr). specialize (Kr He).
    assert (∃ sent0,
              object_localization_client_ (process_state (dispatch e s))
              = object_localization_client_ s ++ sent0 ∧
              Forall (λ req, object_ids req = latest_requested_objects_ s ∧
                             x_min req = xmin_ (params s) ∧
                             x_max req = xmax_ (params s) ∧
                             y_min req = ymin_ (params s) ∧
                             y_max req = ymax_ (params s) ∧
                             support_surface_height req
                             = table_height_ (params s)) sent0)
      as (sent0 & Hsent0 & Hall0).
    { destruct e as [w sensor_cloud|code| |]; try done; cbn [dispatch].
      - pose proof (CloudCB_requests w sensor_cloud s) as R. cbv zeta in R.
        assert (process_state
                  match CloudCB w sensor_cloud s with
                  | Returned s0 => Running s0
                  | Threw s0 => Terminated s0
                  | Undefined s0 => UndefinedBehaviour s0
                  end = final_state (CloudCB w sensor_cloud s)) as ->
          by (by destruct (CloudCB w sensor_cloud s)).
        destruct R as [->|(_ & _ & t & _ & ->)].
        + exists []. by rewrite app_nil_r.
        + eexists. split; [reflexivity|]. by repeat constructor.
      - exists []. rewrite app_nil_r. split; [|done].
        unfold KeyboardCB. case_decide; by destruct s. }
    destruct (dispatch e s) as [s1|s1|s1]; cbn [process_state] in *;
      [|split; [done|by exists sent0]..].
    destruct (IH s1 Hrest) as (Hr & sent & Hsent & Hall1).
    split; [congruence|]. exists (sent0 ++ sent).
    rewrite Hsent, Hsent0, <- app_assoc. split; [done|].
    apply Forall_app. split; [done|].
    eapply Forall_impl; [exact Hall1|]. cbn. rewrite Kp, Kr. done.
Qed.

(** X15.  A disarmed node drops every cloud and ignores every key but 'c':
    such events leave its state exactly as it was. *)
Theorem disarmed_node_ignores_clouds_and_other_keys
    (events : list Event) (s : State) :
  capture_kinect_ s = false →
  Forall is_cloud_or_other_key events →
  spin events s = Running s.
Proof.
  intros Hoff. induction 1 as [|e rest He _ IH]; [done|].
  destruct e as [w sensor_cloud|code| |]; try done; cbn [spin dispatch].
  - unfold CloudCB. by rewrite Hoff.
  - unfold KeyboardCB. cbn in He. by rewrite decide_False.
Qed.

(** X23.  On a node built by the constructor the integration count is 1
    whatever events it has handled.  So after a request on the direct
    channel, the first cloud that passes the gate is integrated alone, and
    if any of its points has a finite depth the integrator reads one past
    the end of its one-element scratch vector: the callback reaches that
    read with the frame buffered. *)
Theorem first_frame_with_depth_is_read_out_of_range
    (pcl_visualization : bool) (table_height xmin ymin xmax ymax : double)
    (reference_frame camera_frame : string) (wait_for_recent : bool)
    (bank : gmap string string)
    (events : list Event) (s0 : State) object_name now
    w sensor_cloud (pt : PointT) :
  spin events (PerceptionInterface pcl_visualization table_height
                 xmin ymin xmax ymax reference_frame camera_frame
                 wait_for_recent bank) = Running s0 →
  let s := RequestedObjectsCB object_name now s0 in
  accepts sensor_cloud s = true →
  pt ∈ points (pcl_cloud_of w sensor_cloud s) →
  no_return pt = false →
  num_observations_to_integrate_ (params s) = 1 ∧
  recent_observations_ (pushed w sensor_cloud s)
  = [pcl_cloud_of w sensor_cloud s] ∧
  IntegrateOrganizedClouds [pcl_cloud_of w sensor_cloud s] = None ∧
  CloudCB w sensor_cloud s = Undefined (pushed w sensor_cloud s).
Proof.
  intros Hrun s Hacc Hpt Hret.
  assert (num_observations_to_integrate_ (params s) = 1
          ∧ recent_observations_ s = [])
    as (Hone & Hempty).
  { pose proof (spin_params events
                  (PerceptionInterface pcl_visualization table_height
                     xmin ymin xmax ymax reference_frame camera_frame
                     wait_for_recent bank)) as Hp.
    rewrite Hrun in Hp. cbn [process_state] in Hp.
    subst s. unfold RequestedObjectsCB. destruct s0 as [p ? ? ? ? ? ? ? ? ? ? ? ? ? ?].
    cbn in *. subst p. by destruct wait_for_recent. }
  set (frame := pcl_cloud_of w sensor_cloud s) in *.
  assert (IntegrateOrganizedClouds [frame] = None) as Hnone.
  { apply list_elem_of_lookup in Hpt as [ii Hii].
    unfold IntegrateOrganizedClouds.
    destruct (mapM _ _) as [pts|] eqn:Hpts; [exfalso|done].
    assert (is_Some (mapM (integrate_point [frame])
                       (seq 0 (length (points frame))))) as Hs by done.
    rewrite mapM_is_Some, Forall_seq in Hs.
    destruct (Hs ii) as [p Hp];
      [split; [lia | by eapply lookup_lt_Some]|].
    cbn in Hp. unfold integrate_point in Hp.
    cbn [collect_range_vals head mbind option_bind] in Hp.
    rewrite Hii in Hp. cbn in Hp. rewrite Hret in Hp. done. }
  pose proof (pushed_fields w sensor_cloud s) as F. cbv zeta in F.
  destruct F as (Fo & Fp & _).
  rewrite Hempty in Fo. cbn [app] in Fo. fold frame in Fo.
  split_and!; [done..|].
  rewrite CloudCB_unfold. unfold accepts in Hacc.
  destruct (capture_kinect_ s); [|done]. cbn [negb andb] in *.
  destruct (wait_for_recent_ (params s) && _); [done|]. cbv zeta.
  unfold still_collecting. rewrite Fo, Fp, Hone, Hnone. done.
Qed.

End Loop.

(** * Further properties of the result loop and the filter *)

Lemma kColorPalette_rows :
  Forall (λ row, length row = 3%nat ∧ Forall (λ c, 0 <= c <= 255) row)
         kColorPalette.
Proof. repeat constructor; lia. Qed.

Section Results.
Context {C : Collaborators}.

(** X16.  Whatever non-negative value [rand] returns, the marker sent for an
    object is coloured with a row of the palette: three channels, each
    between 0 and 255. *)
Theorem marker_colour_is_palette_row
    w resp (ii : nat) (model_name : string) (s : State) :
  pcl_visualization_ (params s) = true →
  is_Some (object_transforms resp !! ii ≫= row_major) →
  0 <= rand w ii →
  ∃ s' marker,
    localize_object w resp ii model_name s = Returned s' ∧
    last (mesh_marker_pub_ s') = Some marker ∧
    marker_id marker = ii ∧
    marker_color marker ∈ kColorPalette ∧
    length (marker_color marker) = 3%nat ∧
    Forall (λ c, 0 <= c <= 255) (marker_color marker).
Proof.
  intros Hviz Hpay Hrand.
  destruct (localize_object_spec w resp ii model_name s Hviz Hpay)
    as (s' & Hrun & _ & _ & Hm & _).
  exists s', (marker_for w resp s ii model_name).
  rewrite Hm, last_snoc. split_and!; [done..| | |].
  all: unfold marker_for; cbn [marker_color].
  all: change (Z.of_nat (length kColorPalette)) with 26.
  all: destruct (lookup_lt_is_Some_2 kColorPalette
                   (Z.to_nat (rand w ii `mod` 26))) as [row Hrow];
    [change (length kColorPalette) with 26%nat;
     pose proof (Z.mod_pos_bound (rand w ii) 26); lia|].
  all: rewrite Hrow; cbn [default from_option id].
  - by eapply list_elem_of_lookup_2.
  - by destruct (proj1 (Forall_lookup _ _) kColorPalette_rows _ _ Hrow).
  - by destruct (proj1 (Forall_lookup _ _) kColorPalette_rows _ _ Hrow).
Qed.

(** X18.  The blackening loop keeps the size and layout of a cloud and the
    coordinates of every point; it leaves a point with a return as it is
    and sets the colour of a point without one to black.  So in the cloud
    the filter stage hands on every point without a return is black, and
    running the loop once more would change nothing. *)
Theorem blackening_post_pass
    (p : Params) (original_cloud c : PointCloud) :
  (width (blacken_cloud c) = width c ∧
   height (blacken_cloud c) = height c ∧
   is_dense (blacken_cloud c) = is_dense c ∧
   length (points (blacken_cloud c)) = length (points c)) ∧
  (∀ ii pt, points c !! ii = Some pt →
     ∃ pt', points (blacken_cloud c) !! ii = Some pt' ∧
            p_x pt' = p_x pt ∧ p_y pt' = p_y pt ∧ p_z pt' = p_z pt ∧
            (no_return pt = false → pt' = pt) ∧
            (no_return pt = true →
             p_r pt' = 0 ∧ p_g pt' = 0 ∧ p_b pt' = 0)) ∧
  Forall (λ pt, no_return pt = true →
                p_r pt = 0 ∧ p_g pt = 0 ∧ p_b pt = 0)
         (points (table_removed p original_cloud)) ∧
  blacken_cloud (table_removed p original_cloud)
  = table_removed p original_cloud.
Proof.
  assert (∀ pt, blacken (blacken pt) = blacken pt) as Hidem.
  { intros pt. unfold blacken. destruct (no_return pt) eqn:Hno; [|by rewrite Hno].
    unfold no_return in *. cbn. by rewrite Hno. }
  split_and!; try done.
  - unfold blacken_cloud. cbn [points]. by rewrite length_fmap.
  - intros ii pt Hpt. exists (blacken pt). unfold blacken_cloud. cbn [points].
    rewrite list_lookup_fmap, Hpt. cbn. unfold blacken.
    destruct (no_return pt); cbn; split_and!; done.
  - unfold table_removed.
    set (c' := match OrganizedSegmentation _ with [] => _ | _ => _ end).
    clearbody c'. unfold blacken_cloud. cbn [points].
    apply Forall_fmap, Forall_forall. intros pt _. cbn.
    unfold blacken, no_return.
    destruct (isnan (p_z pt) || negb (isfinite (p_z pt))) eqn:Hno; cbn;
      [done|]. by rewrite Hno.
  - unfold table_removed.
    set (c' := match OrganizedSegmentation _ with [] => _ | _ => _ end).
    clearbody c'. unfold blacken_cloud. cbn [points width height is_dense].
    f_equal. rewrite <- list_fmap_compose. apply list_fmap_ext.
    intros ? pt _. cbn. apply Hidem.
Qed.

End Results.

(** * What the integrator reads of the later clouds *)

Lemma mapM_ext_Forall {A B : Type} (f g : A → option B) (l : list A) :
  Forall (λ x, f x = g x) l → mapM f l = mapM g l.
Proof.
  induction 1 as [|x l Hx _ IH]; [done|]. cbn. by rewrite Hx, IH.
Qed.

Lemma collect_range_vals_depths (rest rest' : list PointCloud) (ii : nat) :
  Forall2 (λ c c', p_z <$> points c !! ii = p_z <$> points c' !! ii)
          rest rest' →
  collect_range_vals rest ii = collect_range_vals rest' ii.
Proof.
  induction 1 as [|c c' rest rest' Hz _ IH]; [done|].
  cbn [collect_range_vals]. rewrite IH.
  destruct (points c !! ii) as [pt|], (points c' !! ii) as [pt'|];
    cbn in *; simplify_eq; [|done].
  unfold no_return. by rewrite Hz.
Qed.

(** X19.  Of the clouds after the first the integrator reads nothing but
    the depth of the points at the indices of the first frame: two buffers
    with the same first frame whose later clouds agree on those depths give
    the same result, whatever their other coordinates, colours, sizes or
    surplus points. *)
Theorem integrator_reads_depths_only
    (first : PointCloud) (rest rest' : list PointCloud) :
  Forall2 (λ c c', ∀ ii, (ii < length (points first))%nat →
                         p_z <$> points c !! ii = p_z <$> points c' !! ii)
          rest rest' →
  IntegrateOrganizedClouds (first :: rest)
  = IntegrateOrganizedClouds (first :: rest').
Proof.
  intros Hsame. unfold IntegrateOrganizedClouds.
  rewrite (mapM_ext_Forall (integrate_point (first :: rest))
             (integrate_point (first :: rest'))); [done|].
  apply Forall_seq. intros ii [_ Hii]. unfold integrate_point.
  cbn [collect_range_vals head].
  rewrite (collect_range_vals_depths rest rest' ii); [done|].
  eapply Forall2_impl; [exact Hsame|]. cbn. intros c c' H. apply H. lia.
Qed.

(** * The earlier revision: the files it writes *)

Lemma list_ascii_of_string_app (s t : string) :
  String.list_ascii_of_string (s +:+ t)
  = String.list_ascii_of_string s ++ String.list_ascii_of_string t.
Proof. induction s as [|a s IH]; [done|]. simpl. by rewrite IH. Qed.

Lemma list_ascii_of_string_inj (s t : string) :
  String.list_ascii_of_string s = String.list_ascii_of_string t → s = t.
Proof.
  intros H. rewrite <- (String.string_of_list_ascii_of_string s),
              <- (String.string_of_list_ascii_of_string t). by rewrite H.
Qed.

(** Two strings with equal-length endings on the same stem. *)
Lemma stem_and_ending (stem s t e1 e2 : string) :
  String.length e1 = String.length e2 →
  (stem +:+ s) +:+ e1 = (stem +:+ t) +:+ e2 → s = t ∧ e1 = e2.
Proof.
  intros Hlen H. apply (f_equal String.list_ascii_of_string) in H.
  rewrite !list_ascii_of_string_app, <- !app_assoc in H.
  apply app_inv_head in H. apply app_inj_2 in H as [H1 H2].
  - split; by apply list_ascii_of_string_inj.
  - revert Hlen. clear. revert e2.
    induction e1 as [|a e1 IH]; intros [|b e2]; cbn; try done.
    intros [= H]. f_equal. by apply IH.
Qed.

Section LegacyFiles.
Context {C : Collaborators}.

(** The paths of one kind for two captures, and paths of two kinds. *)
Lemma legacy_same_kind (a b : Z) (e1 e2 : string) :
  String.length e1 = String.length e2 →
  (Legacy.output_dir +:+ "/" +:+ Legacy.output_image_name a) +:+ e1
  = (Legacy.output_dir +:+ "/" +:+ Legacy.output_image_name b) +:+ e2 →
  a = b ∧ e1 = e2.
Proof.
  intros Hlen H. apply stem_and_ending in H as [H ->]; [|done].
  split; [|done]. unfold Legacy.output_image_name in H.
  apply (inj (String.app "/")), (inj (String.app "frame_")) in H.
  by apply (inj pretty) in H.
Qed.

Lemma legacy_same_kind_orig (a b : Z) (e1 e2 : string) :
  String.length e1 = String.length e2 →
  (Legacy.output_dir +:+ "/orig_" +:+ Legacy.output_image_name a) +:+ e1
  = (Legacy.output_dir +:+ "/orig_" +:+ Legacy.output_image_name b) +:+ e2 →
  a = b ∧ e1 = e2.
Proof.
  intros Hlen H. apply stem_and_ending in H as [H ->]; [|done].
  split; [|done]. unfold Legacy.output_image_name in H.
  apply (inj (String.app "/orig_")), (inj (String.app "frame_")) in H.
  by apply (inj pretty) in H.
Qed.

Lemma legacy_other_kind (a b e1 e2 : string) :
  (Legacy.output_dir +:+ "/" +:+ "frame_" +:+ a) +:+ e1
  ≠ (Legacy.output_dir +:+ "/orig_" +:+ b) +:+ e2.
Proof.
  intros H. apply (f_equal String.list_ascii_of_string) in H.
  rewrite !list_ascii_of_string_app, <- !app_assoc in H.
  apply app_inv_head in H. simpl in H. by simplify_eq.
Qed.

Lemma legacy_path_eq (m n : Z) (x : string) :
  x ∈ Legacy.file_names m → x ∈ Legacy.file_names n → m = n.
Proof.
  unfold Legacy.file_names, Legacy.output_image_path, Legacy.output_pcd_path,
    Legacy.output_orig_pcd_path, Legacy.replace_extension.
  rewrite !elem_of_cons, !elem_of_nil.
  intros [->|[->|[->|[]]]] [H|[H|[H|[]]]].
  all: try (by apply legacy_same_kind in H as [? ?]).
  all: try (by apply legacy_same_kind_orig in H as [? ?]).
  all: try (unfold Legacy.output_image_name in H at 1;
            by apply legacy_other_kind in H).
  all: symmetry in H; unfold Legacy.output_image_name in H at 1;
    by apply legacy_other_kind in H.
Qed.

Lemma legacy_file_names_NoDup (n : Z) : NoDup (Legacy.file_names n).
Proof.
  unfold Legacy.file_names, Legacy.output_image_path, Legacy.output_pcd_path,
    Legacy.output_orig_pcd_path, Legacy.replace_extension.
  repeat constructor; rewrite ?elem_of_cons, ?elem_of_nil.
  - intros [H|[H|[]]].
    + by apply legacy_same_kind in H as [_ ?].
    + unfold Legacy.output_image_name in H at 1.
      by apply legacy_other_kind in H.
  - intros [H|[]]. unfold Legacy.output_image_name in H at 1.
    by apply legacy_other_kind in H.
  - intros [].
Qed.

Lemma legacy_CloudCBInternal_files w original_cloud (s : Legacy.State) :
  Legacy.files_in_order (Legacy.image_count s) s →
  match Legacy.CloudCBInternal w original_cloud s with
  | Legacy.Undefined s' => Legacy.files_in_order (Legacy.image_count s' + 1) s'
  | Legacy.Returned s' | Legacy.Threw s' =>
      Legacy.files_in_order (Legacy.image_count s') s'
  end.
Proof.
  intros [Hpos Hfiles]. unfold Legacy.CloudCBInternal.
  destruct (camera_lookup w); [|done]. cbn.
  assert (seqZ 0 (Legacy.image_count s + 1)
          = seqZ 0 (Legacy.image_count s) ++ [Legacy.image_count s]) as Hseq.
  { rewrite <- (Z2Nat.id (Legacy.image_count s)) at 1 by done.
    replace (Z.of_nat (Z.to_nat (Legacy.image_count s)) + 1)
      with (Z.of_nat (S (Z.to_nat (Legacy.image_count s)))) by lia.
    rewrite seqZ_S. rewrite Z2Nat.id by done. done. }
  case_decide; (split; cbn; [lia|]);
    rewrite fmap_app, Hfiles, Hseq, bind_app; by cbn.
Qed.

Lemma legacy_files_NoDup (k : Z) (s : Legacy.State) :
  Legacy.files_in_order k s → NoDup (Legacy.files s).*1.
Proof.
  intros [_ ->]. apply NoDup_bind.
  - intros m n x _ _. apply legacy_path_eq.
  - intros n _. apply legacy_file_names_NoDup.
  - apply NoDup_seqZ.
Qed.

(** X20.  A node of the earlier revision never writes two files of the same
    name: from its construction on, whatever clouds and keys arrive, the
    files written are the picture, the filtered cloud and the original
    cloud of captures 0, 1, 2, ... in order, the counter holding the number
    of captures written (one less when the counter has just overflowed),
    and all the names differ. *)
Theorem legacy_files_are_never_overwritten
    (visualize : bool) (table_height : double) (reference_frame : string)
    (events : list Legacy.Event) :
  let o := Legacy.spin events
             (Legacy.PerceptionInterface visualize table_height
                reference_frame) in
  let s := Legacy.final_state o in
  NoDup (Legacy.files s).*1 ∧
  (Legacy.files s).*1
  = seqZ 0 (match o with
            | Legacy.Undefined _ => Legacy.image_count s + 1
            | _ => Legacy.image_count s
            end) ≫= Legacy.file_names.
Proof.
  cbv zeta.
  set (s0 := Legacy.PerceptionInterface _ _ _).
  assert (Legacy.files_in_order (Legacy.image_count s0) s0) as Hinv
    by (by split).
  clearbody s0.
  assert (match Legacy.spin events s0 with
          | Legacy.Undefined s' =>
              Legacy.files_in_order (Legacy.image_count s' + 1) s'
          | Legacy.Returned s' | Legacy.Threw s' =>
              Legacy.files_in_order (Legacy.image_count s') s'
          end) as Hend.
  { revert s0 Hinv. induction events as [|e rest IH]; intros s0 Hinv; [done|].
    destruct e as [w sensor_cloud|code]; cbn [Legacy.spin].
    - unfold Legacy.CloudCB.
      destruct (Legacy.capture_kinect_ s0); cbn [negb]; [|by apply IH].
      set (s1 := match frame_lookup w with Some _ => s0 | None => _ end).
      assert (Legacy.files_in_order (Legacy.image_count s1) s1) as Hinv1
        by (subst s1; by destruct (frame_lookup w)).
      clearbody s1.
      pose proof (legacy_CloudCBInternal_files w
                    (transformPointCloud (Legacy.reference_frame_ s1)
                       (default unset_StampedTransform (frame_lookup w))
                       (cloud sensor_cloud)) s1 Hinv1) as Hstep.
      destruct (Legacy.CloudCBInternal w _ s1) as [s2|s2|s2]; [|done..].
      apply IH. by destruct s2.
    - apply IH. unfold Legacy.KeyboardCB. case_decide; [|done].
      by destruct s0. }
  destruct (Legacy.spin events s0) as [s|s|s]; cbn [Legacy.final_state];
    (split; [by eapply legacy_files_NoDup | by destruct Hend]).
Qed.

(** X21.  On a node of the earlier revision the key 'c' buys one capture:
    the first cloud after it is transformed, stored, filtered and written
    to the three files of the current counter, the counter advances by one
    and the gate closes, so the clouds after it change nothing. *)
Theorem legacy_one_capture_per_key
    w sensor_cloud transform (clouds : list Legacy.Event) (s : Legacy.State) :
  camera_lookup w = Some transform →
  Legacy.image_count s ≠ 2147483647 →
  Forall Legacy.is_input_cloud clouds →
  let pcl_cloud :=
    transformPointCloud (Legacy.reference_frame_ s)
      (default unset_StampedTransform (frame_lookup w)) (cloud sensor_cloud) in
  ∃ s', Legacy.spin (Legacy.Keypress 99
                       :: Legacy.InputCloud w sensor_cloud :: clouds) s
        = Legacy.Returned s' ∧
    Legacy.capture_kinect_ s' = false ∧
    Legacy.recent_cloud_ s' = pcl_cloud ∧
    Legacy.image_count s' = Legacy.image_count s + 1 ∧
    Legacy.files s'
    = Legacy.files s
      ++ [ (Legacy.output_image_path (Legacy.image_count s),
            Legacy.table_removed s pcl_cloud);
           (Legacy.output_pcd_path (Legacy.image_count s),
            Legacy.table_removed s pcl_cloud);
           (Legacy.output_orig_pcd_path (Legacy.image_count s), pcl_cloud) ].
Proof.
  intros Hcam Hcount Hclouds pcl_cloud.
  assert (∀ s0, Legacy.capture_kinect_ s0 = false →
                Legacy.spin clouds s0 = Legacy.Returned s0) as Hdrop.
  { intros s0 Hoff. induction Hclouds as [|e rest He _ IH]; [done|].
    destruct e; [|done]. cbn [Legacy.spin]. unfold Legacy.CloudCB.
    by rewrite Hoff. }
  cbn [Legacy.spin]. unfold Legacy.KeyboardCB.
  rewrite decide_True by done.
  unfold Legacy.CloudCB. cbn [Legacy.capture_kinect_ Legacy.set_capture_kinect_ negb].
  unfold Legacy.CloudCBInternal. rewrite Hcam.
  destruct (frame_lookup w); destruct s; cbn in *;
    rewrite decide_False by done; rewrite Hdrop by done;
    eexists; split_and!; reflexivity.
Qed.

End LegacyFiles.

(** * The further properties on the bench *)


Lemma integrated_cloud_keeps_first_frame_witness :
  IntegrateOrganizedClouds [pixel (Finite 5) 1; pixel (Finite 9) 2]
  = Some (pixel (Finite 9) 1) ∧
  width (pixel (Finite 9) 1) = width (pixel (Finite 5) 1) ∧
  length (points (pixel (Finite 9) 1)) = length (points (pixel (Finite 5) 1)).
Proof.
  split; [reflexivity|].
  destruct (integrated_cloud_keeps_first_frame
              (pixel (Finite 5) 1) [pixel (Finite 9) 2] (pixel (Finite 9) 1)
              eq_refl) as (Hw & _ & _ & Hl & _).
  exact (conj Hw Hl).
Defined.

Lemma no_returns_copy_first_frame_witness :
  let first := framed 1000 (pixel NaN 1) in
  let later := framed 2000 (pixel (Infinity true) 2) in
  header_frame_id (header first) = "/base_footprint" ∧
  IntegrateOrganizedClouds [first; later] ≠ Some first ∧
  ∃ out, IntegrateOrganizedClouds [first; later] = Some out ∧
    points out = points first ∧
    width out = width first ∧
    height out = height first ∧
    is_dense out = is_dense first ∧
    header out = header new_PointCloud ∧
    sensor_origin_ out = sensor_origin_ new_PointCloud ∧
    sensor_orientation_ out = sensor_orientation_ new_PointCloud.
Proof.
  intros first later. split; [reflexivity|]. split; [discriminate|].
  apply (no_returns_copy_first_frame first [later]).
  repeat constructor; cbn; try lia.
  all: intros [|ii] pt Hii Hpt; cbn in *; [by simplify_eq|lia].
Defined.

Lemma integrated_depth_is_observed_witness :
  let first := pixel (Finite 5) 1 in
  let rest := [pixel (Finite 9) 2] in
  Forall (λ c, (length (points first) ≤ length (points c))%nat) rest ∧
  (∀ ii vals, (ii < length (points first))%nat →
              collect_range_vals (first :: rest) ii = Some vals →
              length vals ≠ 1%nat) ∧
  ∃ out, IntegrateOrganizedClouds (first :: rest) = Some out ∧
    ∀ ii q, points first !! ii = Some q →
      ∃ p, points out !! ii = Some p ∧
        ((p = q ∧ collect_range_vals (first :: rest) ii = Some []) ∨
         ∃ c pt, c ∈ first :: rest ∧ points c !! ii = Some pt ∧
                 isfinite (p_z pt) = true ∧ p_z p = p_z pt).
Proof.
  intros first rest.
  assert (Forall (λ c, (length (points first) ≤ length (points c))%nat) rest)
    as Hlen by (repeat constructor).
  assert (∀ ii vals, (ii < length (points first))%nat →
                     collect_range_vals (first :: rest) ii = Some vals →
                     length vals ≠ 1%nat) as Hvals.
  { intros [|ii] vals Hii Hc; cbn in *; [by simplify_eq|lia]. }
  split_and!; [exact Hlen | exact Hvals |].
  exact (integrated_depth_is_observed first rest Hlen Hvals).
Defined.

Lemma capture_without_goal_leaves_server_witness :
  isActive armed_by_topic = false ∧
  perch_server_
    (final_state (CloudCB world_ok no_return_message armed_by_topic))
  = NoGoal ∧
  latest_call_success_
    (final_state (CloudCB world_ok no_return_message armed_by_topic))
  = true.
Proof.
  split; [reflexivity|]. split; [|reflexivity].
  exact (proj1 (@capture_without_goal_leaves_server bench world_ok
                  no_return_message armed_by_topic eq_refl)).
Defined.

Lemma completed_capture_disarms_and_resolves_witness :
  let s' := final_state (CloudCB world_counting no_return_message goal_pending) in
  let later := [ InputCloud world_counting no_return_message ] in
  CloudCB world_counting no_return_message goal_pending = Returned s' ∧
  accepts no_return_message goal_pending = true ∧
  still_collecting (pushed world_counting no_return_message goal_pending)
  = false ∧
  Forall is_input_cloud later ∧
  capture_kinect_ s' = false ∧
  perch_server_ s' = Succeeded (latest_object_poses_ s') ∧
  isActive s' = false ∧
  spin later s' = Running s'.
Proof.
  intros s' later.
  assert (Forall is_input_cloud later) as Hall by (repeat constructor).
  split_and!; [reflexivity | reflexivity | reflexivity | exact Hall | ..];
    apply (@completed_capture_disarms_and_resolves bench world_counting
             no_return_message goal_pending s' later
             eq_refl eq_refl eq_refl Hall).
Defined.

Lemma stale_clouds_only_warn_witness :
  let events := [ InputCloud world_ok (message 3 (pixel NaN 1));
                  InputCloud world_ok (message 9 (pixel NaN 2)) ] in
  wait_for_recent_ (params armed_at_10) = true ∧
  capture_kinect_ armed_at_10 = true ∧
  Forall (is_stale_cloud (cmd_rec_time_ armed_at_10)) events ∧
  ∃ s', spin events armed_at_10 = Running s' ∧
    rosout s' = rosout armed_at_10
                ++ replicate (length events) WARN_cloud_too_old ∧
    recent_observations_ s' = recent_observations_ armed_at_10 ∧
    capture_kinect_ s' = true ∧
    cmd_rec_time_ s' = cmd_rec_time_ armed_at_10 ∧
    object_localization_client_ s' = object_localization_client_ armed_at_10 ∧
    perch_server_ s' = perch_server_ armed_at_10.
Proof.
  intros events.
  assert (Forall (is_stale_cloud (cmd_rec_time_ armed_at_10)) events) as Hall
    by (repeat constructor; cbn; lia).
  split_and!; [reflexivity | reflexivity | exact Hall |].
  exact (@stale_clouds_only_warn bench events armed_at_10
           eq_refl eq_refl Hall).
Defined.

Lemma issue_time_changes_only_on_request_witness :
  Forall is_not_request two_objects ∧
  cmd_rec_time_ (process_state (spin two_objects armed_at_10)) = 10.
Proof.
  assert (Forall is_not_request two_objects) as Hall by (repeat constructor).
  split; [exact Hall|].
  exact (@issue_time_changes_only_on_request bench two_objects armed_at_10 Hall).
Defined.

Lemma key_captures_reuse_identifiers_witness :
  let s := armed_by_topic in
  let s' := process_state (spin key_then_cloud s) in
  Forall is_cloud_or_key key_then_cloud ∧
  length (object_localization_client_ s') = 2%nat ∧
  latest_requested_objects_ s' = latest_requested_objects_ s ∧
  ∃ sent,
    object_localization_client_ s' = object_localization_client_ s ++ sent ∧
    Forall (λ req, object_ids req = latest_requested_objects_ s ∧
                   x_min req = xmin_ (params s) ∧
                   x_max req = xmax_ (params s) ∧
                   y_min req = ymin_ (params s) ∧
                   y_max req = ymax_ (params s) ∧
                   support_surface_height req = table_height_ (params s))
           sent.
Proof.
  intros s s'.
  assert (Forall is_cloud_or_key key_then_cloud) as Hall
    by (repeat constructor).
  split_and!; [exact Hall | reflexivity | ..];
    apply (@key_captures_reuse_identifiers bench key_then_cloud s Hall).
Defined.

Lemma disarmed_node_ignores_clouds_and_other_keys_witness :
  let events := [ InputCloud world_ok no_return_message;
                  Keypress 100;
                  InputCloud world_ok no_return_message ] in
  capture_kinect_ (bench_node true false) = false ∧
  Forall is_cloud_or_other_key events ∧
  spin events (bench_node true false) = Running (bench_node true false).
Proof.
  intros events.
  assert (Forall is_cloud_or_other_key events) as Hall
    by (repeat first [apply List.Forall_cons | apply List.Forall_nil];
        first [exact I | by vm_compute]).
  split_and!; [reflexivity | exact Hall |].
  exact (@disarmed_node_ignores_clouds_and_other_keys bench events
           (bench_node true false) eq_refl Hall).
Defined.

Lemma marker_colour_is_palette_row_witness :
  pcl_visualization_ (params goal_pending) = true ∧
  is_Some (object_transforms two_payloads !! 1%nat ≫= row_major) ∧
  0 <= rand world_counting 1 ∧
  ∃ s' marker,
    localize_object world_counting two_payloads 1 "bowl" goal_pending
    = Returned s' ∧
    last (mesh_marker_pub_ s') = Some marker ∧
    marker_id marker = 1%nat ∧
    marker_color marker ∈ kColorPalette ∧
    length (marker_color marker) = 3%nat ∧
    Forall (λ c, 0 <= c <= 255) (marker_color marker).
Proof.
  assert (is_Some (object_transforms two_payloads !! 1%nat ≫= row_major))
    as Hpay by (by eexists).
  assert (0 <= rand world_counting 1) as Hrand by (cbn; lia).
  split_and!; [reflexivity | exact Hpay | exact Hrand |].
  exact (@marker_colour_is_palette_row bench world_counting two_payloads 1
           "bowl" goal_pending eq_refl Hpay Hrand).
Defined.

Lemma integrator_reads_depths_only_witness :
  IntegrateOrganizedClouds [pixel (Finite 5) 1; pixel (Finite 9) 2]
  = IntegrateOrganizedClouds [pixel (Finite 5) 1; pixel (Finite 9) 7].
Proof.
  apply (integrator_reads_depths_only (pixel (Finite 5) 1)
           [pixel (Finite 9) 2] [pixel (Finite 9) 7]).
  repeat constructor. intros [|ii] Hii; reflexivity.
Defined.

Lemma legacy_one_capture_per_key_witness :
  let later := [ @Legacy.InputCloud bench world_ok no_return_message ] in
  camera_lookup world_ok = Some tt ∧
  Legacy.image_count legacy_node ≠ 2147483647 ∧
  Forall Legacy.is_input_cloud later ∧
  ∃ s', Legacy.spin (Legacy.Keypress 99
                       :: Legacy.InputCloud world_ok no_return_message
                       :: later) legacy_node
        = Legacy.Returned s' ∧
    Legacy.capture_kinect_ s' = false ∧
    Legacy.recent_cloud_ s' = pixel NaN 1 ∧
    Legacy.image_count s' = 1 ∧
    Legacy.files s'
    = [ (Legacy.output_image_path 0, pixel NaN 0);
        (Legacy.output_pcd_path 0, pixel NaN 0);
        (Legacy.output_orig_pcd_path 0, pixel NaN 1) ].
Proof.
  intros later.
  assert (Legacy.image_count legacy_node ≠ 2147483647) as Hcount
    by (cbn; lia).
  assert (Forall Legacy.is_input_cloud later) as Hall by (repeat constructor).
  split_and!; [reflexivity | exact Hcount | exact Hall |].
  exact (@legacy_one_capture_per_key bench world_ok no_return_message tt
           later legacy_node eq_refl Hcount Hall).
Defined.

Lemma first_frame_with_depth_is_read_out_of_range_witness :
  let s := RequestedObjectsCB "mug" 0 (bench_node true false) in
  let frame := message 1 (pixel (Finite 5) 1) in
  spin [] (bench_node true false) = Running (bench_node true false) ∧
  accepts frame s = true ∧
  recent_observations_ (pushed world_ok frame s) = [pixel (Finite 5) 1] ∧
  IntegrateOrganizedClouds [pixel (Finite 5) 1] = None ∧
  CloudCB world_ok frame s = Undefined (pushed world_ok frame s).
Proof.
  intros s frame.
  assert ({| p_x := Finite 0; p_y := Finite 0; p_z := Finite 5;
             p_r := 1; p_g := 0; p_b := 0 |}
          ∈ points (pcl_cloud_of world_ok frame s)) as Hpt by (by left).
  split_and!; [reflexivity | reflexivity | reflexivity | ..];
    apply (@first_frame_with_depth_is_read_out_of_range bench
             true 0%Q 0%Q 0%Q 1%Q 1%Q
             "/base_footprint" "/head_mount_kinect_rgb_link" false ∅
             [] (bench_node true false) "mug" 0 world_ok frame _
             eq_refl eq_refl Hpt eq_refl).
Defined.
